(** * Spreadsheet.tsx: the projection of a row sequence onto grid cells

    A shallow embedding of [src/src/Spreadsheet.tsx].  JavaScript numbers
    that the component computes with (row and column indices, spans) are
    integers and are embedded as [Z]; objects used as string-keyed records
    ([props]) and the [Map] of column positions are [gmap]s; a data row is
    an association list in [Object.keys] order. *)

From stdpp Require Import base strings gmap list pretty.

Open Scope Z_scope.

Set Warnings "-register-all".

(** ** JavaScript values *)

(** The values a row can hold ([Record<string, any>]).  [JNum] holds the
    integral numbers, [JNaN] the one falsy non-integral number, [JObj] a
    plain object (no [toString] of its own). *)
Inductive JsVal : Type :=
| JUndefined
| JNull
| JBool (b : bool)
| JNum (n : Z)
| JNaN
| JStr (s : string)
| JObj (fields : list (string * JsVal)).

(** The truthiness test behind [||] and [if (...)]. *)
Definition truthy (v : JsVal) : bool :=
  match v with
  | JUndefined | JNull | JNaN => false
  | JBool b => b
  | JNum n => negb (n =? 0)
  | JStr s => negb (String.eqb s "")
  | JObj _ => true
  end.

(** [String(v)]. *)
Definition JsString (v : JsVal) : string :=
  match v with
  | JUndefined => "undefined"
  | JNull => "null"
  | JBool true => "true"
  | JBool false => "false"
  | JNum n => pretty n
  | JNaN => "NaN"
  | JStr s => s
  | JObj _ => "[object Object]"
  end.

(** [a || b] on values. *)
Definition JsOr (a b : JsVal) : JsVal := if truthy a then a else b.

(** [a || b] where [a] may be [undefined] (an absent optional field) and
    is a number / a string: zero and the empty string are falsy too. *)
Definition orNum (a : option Z) (b : Z) : Z :=
  match a with
  | Some n => if n =? 0 then b else n
  | None => b
  end.

Definition orStr (a : option string) (b : string) : string :=
  match a with
  | Some s => if String.eqb s "" then b else s
  | None => b
  end.

(** A row: own enumerable properties in [Object.keys] order.  Property
    names of one object are pairwise distinct; rows are plain records, so
    reading a name that is not an own property gives [undefined]. *)
Definition Row : Type := list (string * JsVal).

Fixpoint getProp (item : Row) (key : string) : JsVal :=
  match item with
  | [] => JUndefined
  | (k, v) :: rest => if String.eqb k key then v else getProp rest key
  end.

Definition Object_keys (obj : Row) : list string := obj.*1.

(** ** The row store (react-hook-form's field array) *)

(** The three operations [useFieldArray] hands to the component. *)
Inductive StoreCall : Type :=
| append (row : Row)
| remove (index : Z)
| update (index : Z) (row : Row).

(** ** Cells *)

Inductive CellTemplate : Type := TextCell | NonEditableCell.

(** A value of a [props] record: a plain value, or a function, which is
    represented by the row-store calls it makes when it is called with
    the new text of a cell. *)
Inductive PropVal : Type :=
| PVal (v : JsVal)
| PFun (handler : string → list StoreCall).

Module Cell.
Record t : Type := mk {
  rowIndex : Z;
  colIndex : Z;
  Template : CellTemplate;
  props : gmap string PropVal;
  rowSpan : option Z;
  colSpan : option Z;
  isFocusable : option bool;
  isSelectable : option bool
}.
End Cell.

Module CustomCell.
Record t : Type := mk {
  title : option string;
  template : option CellTemplate;
  props : option (gmap string PropVal);
  rowSpan : option Z;
  colSpan : option Z;
  isFocusable : option bool;
  isSelectable : option bool
}.
(** What reading these properties off a primitive value gives. *)
Definition none : t := mk None None None None None None None.
End CustomCell.

(** What a [columnHeaderTitle] callback can hand back at run time.  The
    declared type is [string | null | CustomCell]; [PUndefined], [PBool]
    and [PNumber] are the values outside of it. *)
Inductive PolicyResult : Type :=
| PNull
| PString (s : string)
| PCustom (c : CustomCell.t)
| PUndefined
| PBool (b : bool)
| PNumber (n : Z).

Definition Policy : Type := string → Z → Z → PolicyResult.

Module HeaderInfo.
Record t : Type := mk {
  key : string;
  cell : option Cell.t;
  title : string;
  customCell : option PolicyResult;
  colSpan : option Z
}.
End HeaderInfo.

Definition DISABLED_COLOR : string := "#EEEEEE".

(** ** Effects: calls of the header policy, and [TypeError] *)

Inductive Exn : Type := TypeError.

(** One invocation [columnHeaderTitle(key, rowIndex, colIndex)]. *)
Record PolicyCall : Type := Called {
  call_key : string;
  call_rowIndex : Z;
  call_colIndex : Z
}.

(** A computation: the policy calls made so far, in order, and either
    the exception thrown or the value returned. *)
Definition M (A : Type) : Type := list PolicyCall * (Exn + A).

Definition ret {A} (a : A) : M A := ([], inr a).

Definition throw {A} (e : Exn) : M A := ([], inl e).

Definition bind {A B} (m : M A) (f : A → M B) : M B :=
  match m with
  | (log, inl e) => (log, inl e)
  | (log, inr a) => let '(log', r) := f a in (log ++ log', r)
  end.

Notation "'let*' x ':=' m 'in' k" := (bind m (λ x, k))
  (at level 10, x name, m at level 100, k at level 200).

Definition callPolicy (f : Policy) (key : string) (rowIndex colIndex : Z)
  : M PolicyResult :=
  ([Called key rowIndex colIndex], inr (f key rowIndex colIndex)).

(** [array.map((x, i) => f(x, i))] for a callback with effects, the index
    counted from [i]. *)
Fixpoint mapM_from {A B} (f : A → nat → M B) (i : nat) (l : list A) : M (list B) :=
  match l with
  | [] => ret []
  | x :: rest =>
      let* y := f x i in
      let* ys := mapM_from f (S i) rest in
      ret (y :: ys)
  end.

Definition mapM_index {A B} (f : A → nat → M B) (l : list A) : M (list B) :=
  mapM_from f 0%nat l.

(** Reading a property off a policy result: [undefined] and [null] throw,
    a primitive has none of the properties read here. *)
Definition propertiesOf (result : PolicyResult) : M CustomCell.t :=
  match result with
  | PNull | PUndefined => throw TypeError
  | PCustom c => ret c
  | PString _ | PBool _ | PNumber _ => ret CustomCell.none
  end.

(** [if (customCell)]: the properties of a truthy [customCell]. *)
Definition truthyCustom (customCell : option PolicyResult) : option CustomCell.t :=
  match customCell with
  | Some (PCustom c) => Some c
  | Some (PBool true) => Some CustomCell.none
  | Some (PNumber n) => if n =? 0 then None else Some CustomCell.none
  | Some (PString s) => if String.eqb s "" then None else Some CustomCell.none
  | _ => None
  end.

(** ** Cell factories *)

Definition createTextCell (text : string) (nonEditable : bool) : Cell.t :=
  {| Cell.rowIndex := 0;
     Cell.colIndex := 0;
     Cell.Template := TextCell;
     Cell.props := {[ "text" := PVal (JStr text);
                      "nonEditable" := PVal (JBool nonEditable) ]};
     Cell.rowSpan := None; Cell.colSpan := None;
     Cell.isFocusable := None; Cell.isSelectable := None |}.

Definition disabledStyle : PropVal :=
  PVal (JObj [("backgroundColor", JStr DISABLED_COLOR)]).

Definition headerProps (value : string) : gmap string PropVal :=
  {[ "value" := PVal (JStr value);
     "nonEditable" := PVal (JBool true);
     "style" := disabledStyle ]}.

Definition createHeaderCell (value : string) : Cell.t :=
  {| Cell.rowIndex := 0;
     Cell.colIndex := 0;
     Cell.Template := NonEditableCell;
     Cell.props := headerProps value;
     Cell.rowSpan := None; Cell.colSpan := None;
     Cell.isFocusable := None; Cell.isSelectable := None |}.

Definition createRowNumberCell (value : Z) : Cell.t :=
  {| Cell.rowIndex := 0;
     Cell.colIndex := 0;
     Cell.Template := NonEditableCell;
     Cell.props := headerProps (JsString (JNum value));
     Cell.rowSpan := None; Cell.colSpan := None;
     Cell.isFocusable := None; Cell.isSelectable := None |}.

(** [{...c, rowIndex, colIndex}] *)
Definition at_position (c : Cell.t) (rowIndex colIndex : Z) : Cell.t :=
  {| Cell.rowIndex := rowIndex;
     Cell.colIndex := colIndex;
     Cell.Template := Cell.Template c;
     Cell.props := Cell.props c;
     Cell.rowSpan := Cell.rowSpan c; Cell.colSpan := Cell.colSpan c;
     Cell.isFocusable := Cell.isFocusable c;
     Cell.isSelectable := Cell.isSelectable c |}.

(** [{...a, ...b}] on records: a field of [b] wins over the same field
    of [a]; an absent [b] spreads nothing. *)
Definition spread (a : gmap string PropVal) (b : option (gmap string PropVal))
  : gmap string PropVal :=
  match b with
  | Some b => b ∪ a
  | None => a
  end.

(** ** Utility functions *)

Definition getObjectKeys (obj : Row) : list string :=
  filter (λ key, key ≠ "id") (Object_keys obj).

Definition processHeaderInfo (key : string) (colIdx : Z)
    (columnHeaderTitle : option Policy) : M (option HeaderInfo.t) :=
  match columnHeaderTitle with
  | None =>
      ret (Some {| HeaderInfo.key := key;
                   HeaderInfo.cell := Some (createHeaderCell key);
                   HeaderInfo.title := key;
                   HeaderInfo.customCell := None;
                   HeaderInfo.colSpan := None |})
  | Some f =>
      let* result := callPolicy f key 0 (colIdx + 1) in
      match result with
      | PNull => ret None
      | PString s =>
          ret (Some {| HeaderInfo.key := key;
                       HeaderInfo.cell := Some (createHeaderCell s);
                       HeaderInfo.title := s;
                       HeaderInfo.customCell := None;
                       HeaderInfo.colSpan := None |})
      | _ =>
          let* r := propertiesOf result in
          let template := default NonEditableCell (CustomCell.template r) in
          let cell :=
            {| Cell.rowIndex := 0;
               Cell.colIndex := colIdx + 1;
               Cell.Template := template;
               Cell.props :=
                 default (headerProps (orStr (CustomCell.title r) key))
                         (CustomCell.props r);
               Cell.rowSpan := CustomCell.rowSpan r;
               Cell.colSpan := CustomCell.colSpan r;
               Cell.isFocusable := CustomCell.isFocusable r;
               Cell.isSelectable := CustomCell.isSelectable r |} in
          ret (Some {| HeaderInfo.key := key;
                       HeaderInfo.cell := Some cell;
                       HeaderInfo.title := orStr (CustomCell.title r) key;
                       HeaderInfo.customCell := Some result;
                       HeaderInfo.colSpan := CustomCell.colSpan r |})
      end
  end.

Definition createDataCell (value : JsVal) (rowIdx colIdx : Z)
    (customCell : option PolicyResult) : Cell.t :=
  let baseCell := createTextCell (JsString (JsOr value (JStr ""))) false in
  match truthyCustom customCell with
  | Some c =>
      {| Cell.rowIndex := rowIdx;
         Cell.colIndex := colIdx;
         Cell.Template := default TextCell (CustomCell.template c);
         Cell.props := spread (Cell.props baseCell) (CustomCell.props c);
         Cell.rowSpan := CustomCell.rowSpan c;
         Cell.colSpan := CustomCell.colSpan c;
         Cell.isFocusable := CustomCell.isFocusable c;
         Cell.isSelectable := CustomCell.isSelectable c |}
  | None => at_position baseCell rowIdx colIdx
  end.

(** ** The cell list *)

(** [headerInfo]: every key of the first row through [processHeaderInfo],
    the [null] results filtered out. *)
Definition resolveHeaders (allKeys : list string)
    (columnHeaderTitle : option Policy) : M (list HeaderInfo.t) :=
  let* infos :=
    mapM_index (λ key colIdx,
      processHeaderInfo key (Z.of_nat colIdx) columnHeaderTitle) allKeys in
  ret (omap id infos).

(** The header cell pushed for [info] when the running index is
    [currentColIndex]. *)
Definition headerCellAt (info : HeaderInfo.t) (currentColIndex : Z) : Cell.t :=
  let c := default (createHeaderCell (HeaderInfo.key info)) (HeaderInfo.cell info) in
  {| Cell.rowIndex := 0;
     Cell.colIndex := currentColIndex;
     Cell.Template :=
       match HeaderInfo.cell info with
       | Some c' => Cell.Template c'
       | None => NonEditableCell
       end;
     Cell.props := Cell.props c;
     Cell.rowSpan := Cell.rowSpan c; Cell.colSpan := Cell.colSpan c;
     Cell.isFocusable := Cell.isFocusable c;
     Cell.isSelectable := Cell.isSelectable c |}.

(** [info.colSpan || 1], the number of column slots [info] takes. *)
Definition spanWidth (info : HeaderInfo.t) : Z :=
  orNum (HeaderInfo.colSpan info) 1.

(** One round of the [forEach] over [headerInfo]; the state is
    [(currentColIndex, headerCells, columnPositions)]. *)
Definition placeHeader (st : Z * list Cell.t * gmap string Z)
    (info : HeaderInfo.t) : Z * list Cell.t * gmap string Z :=
  let '(currentColIndex, headerCells, columnPositions) := st in
  (currentColIndex + spanWidth info,
   headerCells ++ [headerCellAt info currentColIndex],
   <[HeaderInfo.key info := currentColIndex]> columnPositions).

Definition layoutColumns (headerInfo : list HeaderInfo.t)
  : Z * list Cell.t * gmap string Z :=
  foldl placeHeader (1, [], ∅) headerInfo.

(** [columnPositions.get(key)!]: every key read was set by the [forEach]
    (lemma [columnPositions_set] below), the fallback is never taken. *)
Definition positionOf (columnPositions : gmap string Z) (key : string) : Z :=
  default 0 (columnPositions !! key).

Definition rowNumberHeaderCell : Cell.t := at_position (createHeaderCell "#") 0 0.

Definition rowNumberCells (data : list Row) : list Cell.t :=
  imap (λ idx _,
    at_position (createRowNumberCell (Z.of_nat idx + 1)) (Z.of_nat idx + 1) 0) data.

Definition dataCells (data : list Row) (headerInfo : list HeaderInfo.t)
    (columnPositions : gmap string Z) : list Cell.t :=
  concat (imap (λ rowIdx item,
    map (λ info,
      let colIdx := positionOf columnPositions (HeaderInfo.key info) in
      createDataCell (getProp item (HeaderInfo.key info))
                     (Z.of_nat rowIdx + 1) colIdx
                     (HeaderInfo.customCell info)) headerInfo) data).

Definition getCells (data : list Row) (columnHeaderTitle : option Policy)
  : M (list Cell.t) :=
  match data with
  | [] => ret []
  | firstItem :: _ =>
      let allKeys := getObjectKeys firstItem in
      let* headerInfo := resolveHeaders allKeys columnHeaderTitle in
      let '(_, headerCells, columnPositions) := layoutColumns headerInfo in
      ret (rowNumberHeaderCell :: rowNumberCells data ++ headerCells
             ++ dataCells data headerInfo columnPositions)
  end.

(** ** The component *)

Module Props.
Record t : Type := mk {
  data : list Row;
  columnHeaderTitle : option Policy;
  height : option string;
  width : option string;
  stickyTopRows : option Z;
  stickyBottomRows : option Z;
  stickyLeftColumns : option Z;
  stickyRightColumns : option Z;
  fieldArrayName : option string
}.
End Props.

(** The props of the [<ReactGrid>] element. *)
Module ReactGrid.
Record t : Type := mk {
  cells : list Cell.t;
  stickyTopRows : Z;
  stickyBottomRows : Z;
  stickyLeftColumns : Z;
  stickyRightColumns : Z
}.
End ReactGrid.

(** The element the component returns: the inner [div]'s style and the
    grid in it. *)
Module Element.
Record t : Type := mk {
  height : string;
  width : string;
  grid : ReactGrid.t
}.
End Element.

(** [fields] is the live row sequence [useFieldArray] returns, of the
    form passed in or of the internal one seeded with [data]. *)
Definition Spreadsheet (p : Props.t) (fields : list Row) : M Element.t :=
  let height := default "400px" (Props.height p) in
  let width := default "100%" (Props.width p) in
  let stickyTopRows := default 1 (Props.stickyTopRows p) in
  let stickyBottomRows := default 0 (Props.stickyBottomRows p) in
  let stickyLeftColumns := default 1 (Props.stickyLeftColumns p) in
  let stickyRightColumns := default 0 (Props.stickyRightColumns p) in
  let data := fields in
  let* memoizedCells := getCells data (Props.columnHeaderTitle p) in
  ret {| Element.height := height;
         Element.width := width;
         Element.grid :=
           {| ReactGrid.cells := memoizedCells;
              ReactGrid.stickyTopRows := stickyTopRows;
              ReactGrid.stickyBottomRows := stickyBottomRows;
              ReactGrid.stickyLeftColumns := stickyLeftColumns;
              ReactGrid.stickyRightColumns := stickyRightColumns |} |}.

(** The functions among the props of a cell: all the grid can call when
    the user edits the cell (the [<ReactGrid>] element itself is given no
    function). *)
Definition cellCallbacks (c : Cell.t) : list (string → list StoreCall) :=
  omap (λ kv, match kv.2 with PFun h => Some h | PVal _ => None end)
       (map_to_list (Cell.props c)).

(** The row-store calls an edit of cell [c] to [newText] can lead to. *)
Definition editCalls (c : Cell.t) (newText : string) : list StoreCall :=
  mbind (λ h, h newText) (cellCallbacks c).

(** ** The page of [App.tsx] *)

(** The header policy [App] passes. *)
Definition appPolicy : Policy := λ col _ _,
  if String.eqb col "name" then PString "Name"
  else if String.eqb col "city" then
    PCustom {| CustomCell.title := Some "City";
               CustomCell.template := None;
               CustomCell.props := None;
               CustomCell.rowSpan := None;
               CustomCell.colSpan := Some 2;
               CustomCell.isFocusable := None;
               CustomCell.isSelectable := None |}
  else PString col.

(** The first rows of [App]'s data, as the field array hands them back
    (each with its generated [id]). *)
Definition appJohn : Row :=
  [("name", JStr "John Doe"); ("age", JNum 28); ("city", JStr "New York");
   ("occupation", JStr "Engineer"); ("salary", JNum 70000); ("id", JStr "f0")].

Definition appJane : Row :=
  [("name", JStr "Jane Smith"); ("age", JNum 34);
   ("city", JStr "San Francisco"); ("occupation", JStr "Designer");
   ("salary", JNum 80000); ("id", JStr "f1")].

(** ** Vocabulary for the statements *)

Definition isUndefined (r : PolicyResult) : bool :=
  match r with PUndefined => true | _ => false end.

Definition isNull (r : PolicyResult) : bool :=
  match r with PNull => true | _ => false end.

(** [P] holds of every answer of the policy, when there is one, in a
    pass over [allKeys]. *)
Definition allResults (P : PolicyResult → bool)
    (columnHeaderTitle : option Policy) (allKeys : list string) : bool :=
  match columnHeaderTitle with
  | None => true
  | Some f => forallb P (imap (λ j key, f key 0 (Z.of_nat j + 1)) allKeys)
  end.

(** The policy answers no key with [undefined] (its declared result type
    has no [undefined]). *)
Definition neverUndefined : option Policy → list string → bool :=
  allResults (λ r, negb (isUndefined r)).

(** No column is hidden. *)
Definition neverHidden : option Policy → list string → bool :=
  allResults (λ r, negb (isNull r)).

Definition specifiesNoColSpan (r : PolicyResult) : bool :=
  match r with
  | PCustom c => bool_decide (CustomCell.colSpan c = None)
  | _ => true
  end.

(** No column specifies a [colSpan]. *)
Definition noColSpan : option Policy → list string → bool :=
  allResults specifiesNoColSpan.



(** The keys a pass over [data] discovers. *)
Definition discoveredKeys (data : list Row) : list string :=
  match data with
  | [] => []
  | firstItem :: _ => getObjectKeys firstItem
  end.

(** The calls [processHeaderInfo] makes for the key at position [colIdx]. *)
Definition callsAt (columnHeaderTitle : option Policy) (colIdx : nat)
    (key : string) : list PolicyCall :=
  match columnHeaderTitle with
  | None => []
  | Some _ => [Called key 0 (Z.of_nat colIdx + 1)]
  end.

(** The value [processHeaderInfo] returns for the key at [colIdx]
    ([None], as for [null], when it throws). *)
Definition headerOf (columnHeaderTitle : option Policy) (colIdx : nat)
    (key : string) : option HeaderInfo.t :=
  match (processHeaderInfo key (Z.of_nat colIdx) columnHeaderTitle).2 with
  | inr info => info
  | inl _ => None
  end.

Definition headersOf (columnHeaderTitle : option Policy)
    (allKeys : list string) : list HeaderInfo.t :=
  omap id (imap (headerOf columnHeaderTitle) allKeys).

Definition headerCellsOf (headerInfo : list HeaderInfo.t) : list Cell.t :=
  (layoutColumns headerInfo).1.2.

Definition columnPositionsOf (headerInfo : list HeaderInfo.t) : gmap string Z :=
  (layoutColumns headerInfo).2.

(** The running index before each entry of [headerInfo], from [start]. *)
Fixpoint columnStarts (start : Z) (headerInfo : list HeaderInfo.t) : list Z :=
  match headerInfo with
  | [] => []
  | info :: rest => start :: columnStarts (start + spanWidth info) rest
  end.

(** One entry of the column plan: field name, absolute column index,
    span width. *)
Record PlanEntry : Type := Planned {
  fieldName : string;
  absoluteColumnIndex : Z;
  planSpanWidth : Z
}.

Definition planOf (headerInfo : list HeaderInfo.t) : list PlanEntry :=
  let columnPositions := columnPositionsOf headerInfo in
  map (λ info,
    Planned (HeaderInfo.key info)
            (positionOf columnPositions (HeaderInfo.key info))
            (spanWidth info)) headerInfo.

(** The column plan of a render pass over [data]: the non-hidden columns
    in order. *)
Definition columnPlan (data : list Row) (columnHeaderTitle : option Policy)
  : list PlanEntry :=
  match data with
  | [] => []
  | firstItem :: _ =>
      match resolveHeaders (getObjectKeys firstItem) columnHeaderTitle with
      | (_, inr headerInfo) => planOf headerInfo
      | (_, inl _) => []
      end
  end.

(** The plan, written without the map. *)
Fixpoint planFrom (start : Z) (infos : list HeaderInfo.t) : list PlanEntry :=
  match infos with
  | [] => []
  | info :: rest =>
      Planned (HeaderInfo.key info) start (spanWidth info)
        :: planFrom (start + spanWidth info) rest
  end.

(** The column slots a list of entries takes. *)
Definition totalWidth (infos : list HeaderInfo.t) : Z :=
  foldr (λ info acc, spanWidth info + acc) 0 infos.

Definition shiftLeft (w : Z) (e : PlanEntry) : PlanEntry :=
  Planned (fieldName e) (absoluteColumnIndex e - w) (planSpanWidth e).

(** The computed default props of a data cell. *)
Definition dataProps (value : JsVal) : gmap string PropVal :=
  {[ "text" := PVal (JStr (JsString (JsOr value (JStr ""))));
     "nonEditable" := PVal (JBool false) ]}.

(** What the policy answers for the key at position [j] of the keys
    ([None]: no policy was supplied). *)
Definition resultAt (columnHeaderTitle : option Policy) (j : nat)
    (key : string) : option PolicyResult :=
  (λ f, f key 0 (Z.of_nat j + 1)) <$> columnHeaderTitle.

(** The props of a page that passes rows, possibly a header policy, and
    nothing else. *)
Definition pageProps (data : list Row) (columnHeaderTitle : option Policy)
  : Props.t :=
  {| Props.data := data;
     Props.columnHeaderTitle := columnHeaderTitle;
     Props.height := None;
     Props.width := None;
     Props.stickyTopRows := None;
     Props.stickyBottomRows := None;
     Props.stickyLeftColumns := None;
     Props.stickyRightColumns := None;
     Props.fieldArrayName := None |}.

Definition onlyData (data : list Row) : Props.t := pageProps data None.




(** Two header informations that give the same column: same key, same
    span width, same header cell wherever it is placed, same data cells. *)
Definition sameColumn (a b : HeaderInfo.t) : Prop :=
  HeaderInfo.key a = HeaderInfo.key b
  ∧ spanWidth a = spanWidth b
  ∧ (∀ currentColIndex,
       headerCellAt a currentColIndex = headerCellAt b currentColIndex)
  ∧ (∀ value rowIdx colIdx,
       createDataCell value rowIdx colIdx (HeaderInfo.customCell a)
       = createDataCell value rowIdx colIdx (HeaderInfo.customCell b)).

(** [App]'s policy, with the [name] column hidden. *)
Definition hideName : Policy := λ col rowIndex colIndex,
  if String.eqb col "name" then PNull else appPolicy col rowIndex colIndex.

(** ** Vocabulary for the further properties *)

(** Where a cell sits. *)
Definition coordinate (c : Cell.t) : Z * Z := (Cell.rowIndex c, Cell.colIndex c).

(** The position, counted from the head of [keys], of the first key the
    policy answers with [undefined] when the head is at position [j] of
    the keys of the pass. *)
Fixpoint undefinedFrom (f : Policy) (j : nat) (keys : list string) : option nat :=
  match keys with
  | [] => None
  | key :: rest =>
      if isUndefined (f key 0 (Z.of_nat j + 1)) then Some 0%nat
      else S <$> undefinedFrom f (S j) rest
  end.

Definition firstUndefined (columnHeaderTitle : option Policy)
    (allKeys : list string) : option nat :=
  match columnHeaderTitle with
  | None => None
  | Some f => undefinedFrom f 0 allKeys
  end.


(** A Custom spec that sets a title at most. *)
Definition titleOnly (c : CustomCell.t) : bool :=
  match c with
  | CustomCell.mk _ None None None None None None => true
  | _ => false
  end.

(** The policy [f] with every spec that sets a title at most replaced by
    the string a header shows for it. *)
Definition titleOnlyAsString (f : Policy) : Policy := λ key rowIndex colIndex,
  match f key rowIndex colIndex with
  | PCustom c =>
      if titleOnly c then PString (orStr (CustomCell.title c) key)
      else PCustom c
  | result => result
  end.

(** * Lemmas *)



Lemma allResults_lookup P (f : Policy) allKeys j key :
  allResults P (Some f) allKeys = true →
  allKeys !! j = Some key →
  P (f key 0 (Z.of_nat j + 1)) = true.
Proof.
  simpl. rewrite forallb_forall. intros Hall Hj. apply Hall.
  apply list_elem_of_In, list_elem_of_lookup. exists j.
  by rewrite list_lookup_imap, Hj.
Qed.

Lemma allResults_intro P (f : Policy) allKeys :
  (∀ j key, allKeys !! j = Some key → P (f key 0 (Z.of_nat j + 1)) = true) →
  allResults P (Some f) allKeys = true.
Proof.
  intros HP. simpl. apply forallb_forall.
  intros r [j Hj]%list_elem_of_In%list_elem_of_lookup.
  rewrite list_lookup_imap in Hj.
  destruct (allKeys !! j) as [key|] eqn:Hkey; [|done].
  injection Hj as <-. by apply HP.
Qed.

Lemma neverUndefined_lookup (f : Policy) allKeys j key :
  neverUndefined (Some f) allKeys = true →
  allKeys !! j = Some key →
  f key 0 (Z.of_nat j + 1) ≠ PUndefined.
Proof.
  intros Hall Hj Heq.
  pose proof (allResults_lookup _ _ _ _ _ Hall Hj) as Hdef.
  by rewrite Heq in Hdef.
Qed.

Lemma processHeaderInfo_returns policy colIdx key :
  (∀ f, policy = Some f → f key 0 (Z.of_nat colIdx + 1) ≠ PUndefined) →
  processHeaderInfo key (Z.of_nat colIdx) policy
  = (callsAt policy colIdx key, inr (headerOf policy colIdx key)).
Proof.
  intros Hdef. unfold headerOf. destruct policy as [f|]; [|done].
  specialize (Hdef f eq_refl). simpl.
  by destruct (f key 0 (Z.of_nat colIdx + 1)).
Qed.

Lemma mapM_from_returns {A B} (f : A → nat → M B)
    (c : nat → A → list PolicyCall) (g : nat → A → B) (l : list A) (i : nat) :
  (∀ j x, l !! j = Some x →
     f x (i + j)%nat = (c (i + j)%nat x, inr (g (i + j)%nat x))) →
  mapM_from f i l
  = (concat (imap (λ j, c (i + j)%nat) l), inr (imap (λ j, g (i + j)%nat) l)).
Proof.
  revert i. induction l as [|x rest IH]; intros i Hf; [done|].
  simpl. pose proof (Hf 0%nat x eq_refl) as H0.
  rewrite Nat.add_0_r in H0. rewrite H0. simpl.
  rewrite (IH (S i)).
  - simpl. rewrite !Nat.add_0_r, app_nil_r.
    assert (∀ C (h : nat → A → C),
      imap (λ j, h (S i + j)%nat) rest = imap ((λ j, h (i + j)%nat) ∘ S) rest)
      as Hshift.
    { intros C h. apply imap_ext. intros j y _. simpl. f_equal. lia. }
    by rewrite !Hshift.
  - intros j y Hj. specialize (Hf (S j) y Hj).
    by replace (S i + j)%nat with (i + S j)%nat by lia.
Qed.

Lemma resolveHeaders_returns policy allKeys :
  neverUndefined policy allKeys = true →
  resolveHeaders allKeys policy
  = (concat (imap (callsAt policy) allKeys), inr (headersOf policy allKeys)).
Proof.
  intros Hdef. unfold resolveHeaders, mapM_index.
  rewrite (mapM_from_returns _ (callsAt policy) (headerOf policy)).
  - simpl. by rewrite app_nil_r.
  - intros j key Hj. simpl. apply processHeaderInfo_returns.
    intros f ->. by eapply neverUndefined_lookup.
Qed.

Lemma getCells_returns policy firstItem rest :
  let data := firstItem :: rest in
  let allKeys := getObjectKeys firstItem in
  let headerInfo := headersOf policy allKeys in
  neverUndefined policy allKeys = true →
  getCells data policy
  = (concat (imap (callsAt policy) allKeys),
     inr (rowNumberHeaderCell :: rowNumberCells data
            ++ headerCellsOf headerInfo
            ++ dataCells data headerInfo (columnPositionsOf headerInfo))).
Proof.
  intros data allKeys headerInfo Hdef. unfold getCells. simpl.
  fold allKeys. rewrite resolveHeaders_returns by done. simpl.
  fold headerInfo. unfold headerCellsOf, columnPositionsOf.
  destruct (layoutColumns headerInfo) as [[cur hs] pos]. simpl.
  by rewrite app_nil_r.
Qed.

(** *** The [forEach] that lays the columns out *)

Lemma layout_from (infos : list HeaderInfo.t) cur hs (pos : gmap string Z) :
  ∃ cur' pos',
    foldl placeHeader (cur, hs, pos) infos
    = (cur', hs ++ zip_with headerCellAt infos (columnStarts cur infos), pos')
    ∧ (∀ k, k ∉ HeaderInfo.key <$> infos → pos' !! k = pos !! k)
    ∧ (NoDup (HeaderInfo.key <$> infos) →
       ∀ n info, infos !! n = Some info →
         pos' !! HeaderInfo.key info = columnStarts cur infos !! n)
    ∧ (∀ info, info ∈ infos → is_Some (pos' !! HeaderInfo.key info)).
Proof.
  revert cur hs pos. induction infos as [|i rest IH]; intros cur hs pos.
  - exists cur, pos. simpl. rewrite app_nil_r.
    split_and!; [done|done|by intros _ n info|by intros info ?%elem_of_nil].
  - simpl.
    destruct (IH (cur + spanWidth i) (hs ++ [headerCellAt i cur])
                 (<[HeaderInfo.key i := cur]> pos))
      as (cur' & pos' & Hfold & Hout & Hin & Hsome).
    exists cur', pos'. split_and!.
    + by rewrite Hfold, <- app_assoc.
    + intros k [Hne Hk]%not_elem_of_cons.
      rewrite (Hout k Hk). by rewrite lookup_insert_ne.
    + intros [Hfresh Hnd]%NoDup_cons [|n] info Hn; simpl in *.
      * injection Hn as <-. rewrite (Hout _ Hfresh). by rewrite lookup_insert_eq.
      * by apply Hin.
    + intros info [->|Hrest]%elem_of_cons; [|by apply Hsome].
      destruct (decide (HeaderInfo.key i ∈ HeaderInfo.key <$> rest)) as [Hk|Hk].
      * apply list_elem_of_fmap in Hk as (info' & -> & Hk). by apply Hsome.
      * rewrite (Hout _ Hk), lookup_insert_eq. by eexists.
Qed.

Lemma headerCellsOf_starts (infos : list HeaderInfo.t) :
  headerCellsOf infos = zip_with headerCellAt infos (columnStarts 1 infos).
Proof.
  unfold headerCellsOf, layoutColumns.
  destruct (layout_from infos 1 [] ∅) as (cur' & pos' & -> & _). done.
Qed.

Lemma columnPositions_starts (infos : list HeaderInfo.t) n info :
  NoDup (HeaderInfo.key <$> infos) →
  infos !! n = Some info →
  columnPositionsOf infos !! HeaderInfo.key info = columnStarts 1 infos !! n.
Proof.
  unfold columnPositionsOf, layoutColumns. intros Hnd Hn.
  destruct (layout_from infos 1 [] ∅) as (cur' & pos' & -> & _ & Hin & _).
  by apply Hin.
Qed.

(** The non-null assertion of [columnPositions.get(info.key)!] holds. *)
Lemma columnPositions_set (infos : list HeaderInfo.t) info :
  info ∈ infos → is_Some (columnPositionsOf infos !! HeaderInfo.key info).
Proof.
  unfold columnPositionsOf, layoutColumns. intros Hin.
  destruct (layout_from infos 1 [] ∅) as (cur' & pos' & -> & _ & _ & Hsome).
  by apply Hsome.
Qed.

Lemma columnPositions_hidden (infos : list HeaderInfo.t) k :
  k ∉ HeaderInfo.key <$> infos → columnPositionsOf infos !! k = None.
Proof.
  unfold columnPositionsOf, layoutColumns. intros Hk.
  destruct (layout_from infos 1 [] ∅) as (cur' & pos' & -> & Hout & _).
  simpl. by rewrite (Hout k Hk).
Qed.

Lemma length_columnStarts start (infos : list HeaderInfo.t) :
  length (columnStarts start infos) = length infos.
Proof. revert start. induction infos; intros; simpl; [done|]. by rewrite IHinfos. Qed.

Lemma length_headerCellsOf (infos : list HeaderInfo.t) :
  length (headerCellsOf infos) = length infos.
Proof.
  rewrite headerCellsOf_starts, length_zip_with, length_columnStarts. lia.
Qed.

Lemma map_positions_planFrom (infos : list HeaderInfo.t) cur (pos : gmap string Z) :
  (∀ n info, infos !! n = Some info →
     pos !! HeaderInfo.key info = columnStarts cur infos !! n) →
  map (λ info, Planned (HeaderInfo.key info)
                 (positionOf pos (HeaderInfo.key info)) (spanWidth info)) infos
  = planFrom cur infos.
Proof.
  revert cur. induction infos as [|i rest IH]; intros cur Hpos; [done|].
  simpl. f_equal.
  - unfold positionOf. by rewrite (Hpos 0%nat i eq_refl).
  - apply IH. intros n info Hn. by apply (Hpos (S n)).
Qed.

Lemma planOf_planFrom (infos : list HeaderInfo.t) :
  NoDup (HeaderInfo.key <$> infos) → planOf infos = planFrom 1 infos.
Proof.
  intros Hnd. apply map_positions_planFrom.
  intros n info. by apply columnPositions_starts.
Qed.

Lemma planFrom_app start (l1 l2 : list HeaderInfo.t) :
  planFrom start (l1 ++ l2)
  = planFrom start l1 ++ planFrom (start + totalWidth l1) l2.
Proof.
  revert start. induction l1 as [|i l1 IH]; intros start; simpl.
  - f_equal. lia.
  - f_equal. rewrite IH. do 2 f_equal. lia.
Qed.

Lemma planFrom_shift start w (infos : list HeaderInfo.t) :
  planFrom start infos = shiftLeft w <$> planFrom (start + w) infos.
Proof.
  revert start. induction infos as [|i rest IH]; intros start; [done|].
  simpl. f_equal.
  - unfold shiftLeft. simpl. f_equal. lia.
  - rewrite (IH (start + spanWidth i)). do 2 f_equal. lia.
Qed.

Lemma length_planFrom start (infos : list HeaderInfo.t) :
  length (planFrom start infos) = length infos.
Proof. revert start. induction infos; intros; simpl; [done|]. by rewrite IHinfos. Qed.

(** *** The resolved headers *)

Lemma headerOf_key policy j key info :
  headerOf policy j key = Some info → HeaderInfo.key info = key.
Proof.
  unfold headerOf. destruct policy as [f|]; simpl.
  - destruct (f key 0 (Z.of_nat j + 1)); simpl; intros [= <-] || intros [=]; done.
  - by intros [= <-].
Qed.

Lemma elem_of_headersOf policy allKeys info :
  info ∈ headersOf policy allKeys ↔
  ∃ j key, allKeys !! j = Some key ∧ headerOf policy j key = Some info.
Proof.
  unfold headersOf. rewrite list_elem_of_omap. split.
  - intros (o & [j Hj]%list_elem_of_lookup & Ho). simpl in Ho. subst o.
    rewrite list_lookup_imap in Hj.
    destruct (allKeys !! j) as [key|] eqn:Hkey; [|done].
    injection Hj as Hj. by exists j, key.
  - intros (j & key & Hkey & Hinfo). exists (Some info). split; [|done].
    apply list_elem_of_lookup. exists j.
    by rewrite list_lookup_imap, Hkey, <- Hinfo.
Qed.

Lemma omap_imap_keys_sublist (g : nat → string → option HeaderInfo.t)
    (allKeys : list string) :
  (∀ j key info, g j key = Some info → HeaderInfo.key info = key) →
  HeaderInfo.key <$> omap id (imap g allKeys) `sublist_of` allKeys.
Proof.
  revert g. induction allKeys as [|key rest IH]; intros g Hg; [done|].
  rewrite imap_cons. simpl. destruct (g 0%nat key) as [info|] eqn:Hinfo; simpl.
  - rewrite (Hg _ _ _ Hinfo). apply sublist_skip, IH.
    intros j k i. apply Hg.
  - apply sublist_cons, IH. intros j k i. apply Hg.
Qed.

Lemma headersOf_NoDup policy allKeys :
  NoDup allKeys → NoDup (HeaderInfo.key <$> headersOf policy allKeys).
Proof.
  intros Hnd. eapply sublist_NoDup; [done|].
  apply omap_imap_keys_sublist. intros j key info. apply headerOf_key.
Qed.

(** *** The data cells *)

Lemma dataCells_elem (data : list Row) (infos : list HeaderInfo.t)
    (pos : gmap string Z) i item info :
  data !! i = Some item →
  info ∈ infos →
  createDataCell (getProp item (HeaderInfo.key info)) (Z.of_nat i + 1)
                 (positionOf pos (HeaderInfo.key info))
                 (HeaderInfo.customCell info)
  ∈ dataCells data infos pos.
Proof.
  intros Hi Hinfo. unfold dataCells.
  apply list_elem_of_In, in_concat.
  eexists. split.
  - apply list_elem_of_In, list_elem_of_lookup. exists i.
    by rewrite list_lookup_imap, Hi.
  - apply list_elem_of_In. simpl.
    apply (list_elem_of_fmap_2
      (λ info, createDataCell (getProp item (HeaderInfo.key info))
                 (Z.of_nat i + 1) (positionOf pos (HeaderInfo.key info))
                 (HeaderInfo.customCell info))). done.
Qed.

Lemma length_concat_imap {A B} (f : nat → A → list B) (l : list A) (k : nat) :
  (∀ i x, length (f i x) = k) →
  length (concat (imap f l)) = (length l * k)%nat.
Proof.
  revert f. induction l as [|x rest IH]; intros f Hf; [done|].
  rewrite imap_cons. simpl. rewrite length_app, Hf, IH; [done|].
  intros i y. apply Hf.
Qed.

Lemma length_dataCells (data : list Row) (infos : list HeaderInfo.t) pos :
  length (dataCells data infos pos) = (length data * length infos)%nat.
Proof.
  unfold dataCells. apply length_concat_imap.
  intros i x. by rewrite length_map.
Qed.

Lemma length_rowNumberCells (data : list Row) :
  length (rowNumberCells data) = length data.
Proof. unfold rowNumberCells. by rewrite length_imap. Qed.

Lemma spread_lookup (a : gmap string PropVal) b k :
  spread a b !! k
  = match b ≫= (λ m, m !! k) with Some v => Some v | None => a !! k end.
Proof.
  destruct b as [m|]; simpl; [|done].
  rewrite lookup_union. by destruct (m !! k), (a !! k).
Qed.

Lemma elem_of_planOf (infos : list HeaderInfo.t) e :
  e ∈ planOf infos ↔
  ∃ info, info ∈ infos ∧
    e = Planned (HeaderInfo.key info)
          (positionOf (columnPositionsOf infos) (HeaderInfo.key info))
          (spanWidth info).
Proof.
  unfold planOf. rewrite list_elem_of_fmap. split.
  - intros (info & -> & Hin). by exists info.
  - intros (info & Hin & ->). by exists info.
Qed.

(** Under a policy that is defined on the keys, the plan of the pass is
    the plan of the resolved headers. *)
Lemma columnPlan_headersOf policy firstItem rest :
  neverUndefined policy (getObjectKeys firstItem) = true →
  columnPlan (firstItem :: rest) policy
  = planOf (headersOf policy (getObjectKeys firstItem)).
Proof. intros Hdef. unfold columnPlan. by rewrite resolveHeaders_returns. Qed.

(** The column of the plan that carries [key] is the one resolved from
    the position of [key] among the keys. *)
Lemma planned_column policy allKeys j key e :
  NoDup allKeys →
  allKeys !! j = Some key →
  e ∈ planOf (headersOf policy allKeys) →
  fieldName e = key →
  ∃ info, info ∈ headersOf policy allKeys
    ∧ headerOf policy j key = Some info
    ∧ HeaderInfo.key info = key
    ∧ absoluteColumnIndex e
      = positionOf (columnPositionsOf (headersOf policy allKeys)) key
    ∧ planSpanWidth e = spanWidth info.
Proof.
  intros Hnd Hj (info & Hin & ->)%elem_of_planOf Hkey. simpl in *.
  exists info. pose proof Hin as Hin'.
  apply elem_of_headersOf in Hin' as (j' & key' & Hj' & Hinfo).
  pose proof (headerOf_key _ _ _ _ Hinfo) as Hk. rewrite Hkey in Hk. subst key'.
  assert (j' = j) as -> by (eapply NoDup_lookup; eauto).
  by rewrite Hkey.
Qed.

(** Header and data cells are cells of the returned list. *)
Lemma header_cell_in_output (data : list Row) (infos : list HeaderInfo.t) c :
  c ∈ headerCellsOf infos →
  c ∈ rowNumberHeaderCell :: rowNumberCells data ++ headerCellsOf infos
        ++ dataCells data infos (columnPositionsOf infos).
Proof.
  intros Hc. apply elem_of_cons. right.
  apply elem_of_app. right. apply elem_of_app. by left.
Qed.

Lemma data_cell_in_output (data : list Row) (infos : list HeaderInfo.t) c :
  c ∈ dataCells data infos (columnPositionsOf infos) →
  c ∈ rowNumberHeaderCell :: rowNumberCells data ++ headerCellsOf infos
        ++ dataCells data infos (columnPositionsOf infos).
Proof.
  intros Hc. apply elem_of_cons. right.
  apply elem_of_app. right. apply elem_of_app. by right.
Qed.

(** * The data cells of the output *)



(** * Counting the cells *)

Lemma headerOf_shown policy j key :
  (∀ f, policy = Some f →
     f key 0 (Z.of_nat j + 1) ≠ PNull ∧ f key 0 (Z.of_nat j + 1) ≠ PUndefined) →
  is_Some (headerOf policy j key).
Proof.
  unfold headerOf. destruct policy as [f|]; simpl; [|by eexists].
  intros Hf. destruct (Hf f eq_refl) as [Hnull Hundef].
  by destruct (f key 0 (Z.of_nat j + 1)); simpl.
Qed.

Lemma length_omap_imap_total {A B} (g : nat → A → option B) (l : list A) :
  (∀ j x, l !! j = Some x → is_Some (g j x)) →
  length (omap id (imap g l)) = length l.
Proof.
  revert g. induction l as [|x rest IH]; intros g Hg; [done|].
  rewrite imap_cons. simpl. destruct (Hg 0%nat x eq_refl) as [y ->]. simpl.
  f_equal. apply IH. intros j z Hj. by apply (Hg (S j)).
Qed.

Lemma length_headersOf_shown policy allKeys :
  neverUndefined policy allKeys = true →
  neverHidden policy allKeys = true →
  length (headersOf policy allKeys) = length allKeys.
Proof.
  intros Hdef Hshown. apply length_omap_imap_total.
  intros j key Hj. apply headerOf_shown. intros f ->. split.
  - intros Heq. pose proof (allResults_lookup _ _ _ _ _ Hshown Hj) as H.
    by rewrite Heq in H.
  - by eapply neverUndefined_lookup.
Qed.

(** C4.  For a non-empty sequence of N rows whose first row has K keys
    other than [id], when the policy (if there is one) hides no column and
    specifies no colSpan, the pass returns 1 + N + K + N·K cells: the
    corner header, N row-number cells, K header cells and N·K data
    cells. *)
Theorem cell_count policy firstItem rest :
  let data := firstItem :: rest in
  let allKeys := getObjectKeys firstItem in
  let N := length data in
  let K := length allKeys in
  neverUndefined policy allKeys = true →
  neverHidden policy allKeys = true →
  noColSpan policy allKeys = true →
  ∃ calls rowNumbers headers cells,
    getCells data policy
    = (calls, inr (rowNumberHeaderCell :: rowNumbers ++ headers ++ cells))
    ∧ rowNumbers = rowNumberCells data
    ∧ length rowNumbers = N
    ∧ length headers = K
    ∧ length cells = (N * K)%nat
    ∧ length (rowNumberHeaderCell :: rowNumbers ++ headers ++ cells)
      = (1 + N + K + N * K)%nat.
Proof.
  intros data allKeys N K Hdef Hshown _.
  eexists _, _, _, _. split; [by apply getCells_returns|].
  fold allKeys.
  assert (length (headersOf policy allKeys) = K) as HK
    by by apply length_headersOf_shown.
  split_and!.
  - done.
  - apply length_rowNumberCells.
  - by rewrite length_headerCellsOf.
  - by rewrite length_dataCells, HK.
  - rewrite length_cons, !length_app, length_rowNumberCells,
      length_headerCellsOf, length_dataCells, HK.
    unfold N. change (firstItem :: rest) with data. lia.
Qed.

Lemma cell_count_witness :
  ∃ calls cells,
    getCells [appJohn; appJane] None = (calls, inr cells)
    ∧ length cells = 18%nat.
Proof.
  destruct (cell_count None appJohn [appJane] eq_refl eq_refl eq_refl)
    as (calls & rowNumbers & headers & cells & Hret & _ & _ & _ & _ & Hlen).
  eexists _, _. split; [exact Hret | exact Hlen].
Defined.

(** * The empty row sequence *)

(** C5.  On an empty row sequence the pass returns the empty cell list:
    it returns (it does not throw), consults the policy for no key, and
    plans no column. *)
Theorem empty_rows_empty_cells (policy : option Policy) :
  getCells [] policy = ([], inr [])
  ∧ columnPlan [] policy = []
  ∧ discoveredKeys [] = [].
Proof. done. Qed.

(** * The calls of the header policy *)

Lemma concat_imap_singleton {A B} (g : nat → A → B) (l : list A) :
  concat (imap (λ j x, [g j x]) l) = imap g l.
Proof.
  revert g. induction l as [|x rest IH]; intros g; [done|].
  rewrite !imap_cons. simpl. f_equal. apply (IH (g ∘ S)).
Qed.

(** C9.  A pass over a non-empty row sequence with a policy calls the
    policy once for each discovered key, in order, the key at 0-based
    position [j] with the arguments [(key, 0, j+1)]: the list of calls
    depends on the keys alone, not on what the policy answers.  The
    column index passed can differ from the absolute column index the
    column ends at: after a hidden column it is greater, after a column
    with colSpan 2 it is smaller. *)
Theorem policy_calls (f : Policy) firstItem rest :
  let data := firstItem :: rest in
  let allKeys := getObjectKeys firstItem in
  neverUndefined (Some f) allKeys = true →
  (getCells data (Some f)).1
  = imap (λ j key, Called key 0 (Z.of_nat j + 1)) allKeys
  ∧ (∃ rows g key,
       Called key 0 2 ∈ (getCells rows (Some g)).1
       ∧ columnPlan rows (Some g) = [Planned key 1 1])
  ∧ (∃ rows g key,
       Called key 0 2 ∈ (getCells rows (Some g)).1
       ∧ Planned key 3 1 ∈ columnPlan rows (Some g)).
Proof.
  intros data allKeys Hdef. split_and!.
  - unfold data. rewrite getCells_returns by done. simpl.
    apply concat_imap_singleton.
  - exists [[("name", JStr "John"); ("age", JNum 28)]],
      (λ key _ _, if String.eqb key "age" then PString "Age" else PNull),
      "age".
    split; [|by vm_compute]. apply list_elem_of_In. vm_compute. tauto.
  - exists [[("city", JStr "Boston"); ("age", JNum 28)]], appPolicy, "age".
    split; apply list_elem_of_In; vm_compute; tauto.
Qed.

Lemma policy_calls_witness :
  (getCells [appJohn; appJane] (Some appPolicy)).1
  = [Called "name" 0 1; Called "age" 0 2; Called "city" 0 3;
     Called "occupation" 0 4; Called "salary" 0 5].
Proof.
  destruct (policy_calls appPolicy appJohn [appJane] eq_refl) as [Hcalls _].
  exact Hcalls.
Defined.

(** * Spans and flags of a Custom column *)

Lemma headerCell_elem (infos : list HeaderInfo.t) info :
  NoDup (HeaderInfo.key <$> infos) →
  info ∈ infos →
  headerCellAt info (positionOf (columnPositionsOf infos) (HeaderInfo.key info))
  ∈ headerCellsOf infos.
Proof.
  intros Hnd [n Hn]%list_elem_of_lookup.
  rewrite headerCellsOf_starts. apply list_elem_of_lookup. exists n.
  unfold positionOf. rewrite (columnPositions_starts _ _ _ Hnd Hn).
  rewrite lookup_zip_with, Hn. simpl.
  destruct (columnStarts 1 infos !! n) as [s|] eqn:Hs; [done|].
  apply lookup_ge_None in Hs. rewrite length_columnStarts in Hs.
  apply lookup_lt_Some in Hn. lia.
Qed.

Lemma headerOf_custom (f : Policy) j key c :
  f key 0 (Z.of_nat j + 1) = PCustom c →
  ∃ info, headerOf (Some f) j key = Some info
    ∧ HeaderInfo.key info = key
    ∧ HeaderInfo.customCell info = Some (PCustom c)
    ∧ HeaderInfo.colSpan info = CustomCell.colSpan c
    ∧ ∀ cur,
        headerCellAt info cur
        = {| Cell.rowIndex := 0;
             Cell.colIndex := cur;
             Cell.Template := default NonEditableCell (CustomCell.template c);
             Cell.props :=
               default (headerProps (orStr (CustomCell.title c) key))
                       (CustomCell.props c);
             Cell.rowSpan := CustomCell.rowSpan c;
             Cell.colSpan := CustomCell.colSpan c;
             Cell.isFocusable := CustomCell.isFocusable c;
             Cell.isSelectable := CustomCell.isSelectable c |}.
Proof.
  intros Hres. unfold headerOf. simpl. rewrite Hres. simpl.
  eexists. split; [done|]. by split_and!.
Qed.

(** C10.  For a column whose policy result is a Custom spec [c], the
    pass returns a cell list in which, for every row, the data cell of
    the column carries [c]'s rowSpan, colSpan, isFocusable and
    isSelectable, and so does the header cell of the column. *)
Theorem custom_spans_and_flags_on_data_cells (f : Policy) firstItem rest j key c :
  let data := firstItem :: rest in
  let allKeys := getObjectKeys firstItem in
  NoDup allKeys →
  neverUndefined (Some f) allKeys = true →
  allKeys !! j = Some key →
  f key 0 (Z.of_nat j + 1) = PCustom c →
  ∃ calls cells p,
    getCells data (Some f) = (calls, inr cells)
    ∧ Planned key p (orNum (CustomCell.colSpan c) 1) ∈ columnPlan data (Some f)
    ∧ (∀ i item, data !! i = Some item →
         ∃ cell, cell ∈ cells
           ∧ cell = createDataCell (getProp item key) (Z.of_nat i + 1) p
                      (Some (PCustom c))
           ∧ Cell.rowIndex cell = Z.of_nat i + 1
           ∧ Cell.colIndex cell = p
           ∧ Cell.rowSpan cell = CustomCell.rowSpan c
           ∧ Cell.colSpan cell = CustomCell.colSpan c
           ∧ Cell.isFocusable cell = CustomCell.isFocusable c
           ∧ Cell.isSelectable cell = CustomCell.isSelectable c)
    ∧ (∃ header, header ∈ cells
         ∧ Cell.rowIndex header = 0
         ∧ Cell.colIndex header = p
         ∧ Cell.rowSpan header = CustomCell.rowSpan c
         ∧ Cell.colSpan header = CustomCell.colSpan c
         ∧ Cell.isFocusable header = CustomCell.isFocusable c
         ∧ Cell.isSelectable header = CustomCell.isSelectable c).
Proof.
  intros data allKeys Hnd Hdef Hj Hres.
  destruct (headerOf_custom _ _ _ _ Hres)
    as (info & Hinfo & Hkey & Hcustom & Hspan & Hheader).
  set (infos := headersOf (Some f) allKeys).
  assert (info ∈ infos) as Hin by (apply elem_of_headersOf; eauto).
  exists (concat (imap (callsAt (Some f)) allKeys)).
  eexists. exists (positionOf (columnPositionsOf infos) key).
  split; [by apply getCells_returns|]. fold allKeys infos. split_and!.
  - unfold data. rewrite columnPlan_headersOf by done.
    apply elem_of_planOf. exists info. split; [done|].
    unfold spanWidth. by rewrite Hkey, Hspan.
  - intros i item Hi.
    pose proof (dataCells_elem data infos (columnPositionsOf infos)
                  _ _ _ Hi Hin) as Hcell.
    rewrite Hkey, Hcustom in Hcell.
    eexists. split; [|split_and!; [reflexivity|done..]].
    by apply data_cell_in_output.
  - pose proof (headerCell_elem infos info (headersOf_NoDup _ _ Hnd) Hin)
      as Hcell.
    apply (header_cell_in_output data) in Hcell.
    rewrite Hkey, Hheader in Hcell.
    eexists. split; [exact Hcell|done].
Qed.

Lemma custom_spans_and_flags_on_data_cells_witness :
  ∃ calls cells,
    getCells [appJohn; appJane] (Some appPolicy) = (calls, inr cells)
    ∧ ∃ cell, cell ∈ cells
        ∧ Cell.rowIndex cell = 2 ∧ Cell.colIndex cell = 3
        ∧ Cell.colSpan cell = Some 2.
Proof.
  destruct (custom_spans_and_flags_on_data_cells appPolicy appJohn [appJane]
              2 "city"
              {| CustomCell.title := Some "City";
                 CustomCell.template := None;
                 CustomCell.props := None;
                 CustomCell.rowSpan := None;
                 CustomCell.colSpan := Some 2;
                 CustomCell.isFocusable := None;
                 CustomCell.isSelectable := None |})
    as (calls & cells & p & Hret & Hplan & Hdata & _).
  - apply (bool_decide_unpack _). vm_compute. exact I.
  - reflexivity.
  - reflexivity.
  - reflexivity.
  - destruct (Hdata 1%nat appJane eq_refl)
      as (cell & Hin & _ & Hrow & Hcol & _ & Hspan & _).
    exists calls, cells. split; [exact Hret|].
    exists cell. split_and!; [exact Hin | exact Hrow | | exact Hspan].
    rewrite Hcol. clear -Hplan.
    apply list_elem_of_In in Hplan. vm_compute in Hplan.
    destruct Hplan as [H|[H|[H|[H|[H|[]]]]]]; by inversion H.
Defined.

(** * The layout options *)

Lemma getCells_returns_on (data : list Row) policy :
  neverUndefined policy (discoveredKeys data) = true →
  ∃ calls cells, getCells data policy = (calls, inr cells).
Proof.
  destruct data as [|firstItem rest]; intros Hdef.
  - by exists [], [].
  - eexists _, _. by apply getCells_returns.
Qed.

(** C7, as the code has it.  Whenever the pass over the live rows
    returns, the component renders: [height] and [width] go to the style
    of the container and the four sticky options to the grid, each as it
    was passed, and an omitted option counts as height "400px", width
    "100%", stickyTopRows 1, stickyLeftColumns 1, stickyBottomRows 0 and
    stickyRightColumns 0. *)
Theorem layout_options_passed_through (p : Props.t) (fields : list Row) :
  neverUndefined (Props.columnHeaderTitle p) (discoveredKeys fields) = true →
  ∃ calls element,
    Spreadsheet p fields = (calls, inr element)
    ∧ getCells fields (Props.columnHeaderTitle p)
      = (calls, inr (ReactGrid.cells (Element.grid element)))
    ∧ Element.height element
      = match Props.height p with Some h => h | None => "400px" end
    ∧ Element.width element
      = match Props.width p with Some w => w | None => "100%" end
    ∧ ReactGrid.stickyTopRows (Element.grid element)
      = match Props.stickyTopRows p with Some n => n | None => 1 end
    ∧ ReactGrid.stickyBottomRows (Element.grid element)
      = match Props.stickyBottomRows p with Some n => n | None => 0 end
    ∧ ReactGrid.stickyLeftColumns (Element.grid element)
      = match Props.stickyLeftColumns p with Some n => n | None => 1 end
    ∧ ReactGrid.stickyRightColumns (Element.grid element)
      = match Props.stickyRightColumns p with Some n => n | None => 0 end.
Proof.
  intros Hdef.
  destruct (getCells_returns_on _ _ Hdef) as (calls & cells & Hret).
  exists calls. eexists. unfold Spreadsheet. rewrite Hret. simpl.
  rewrite app_nil_r. split; [reflexivity|]. by split_and!.
Qed.

Lemma layout_options_passed_through_witness :
  ∃ calls element,
    Spreadsheet (onlyData [appJohn]) [appJohn] = (calls, inr element)
    ∧ Element.height element = "400px"
    ∧ ReactGrid.stickyLeftColumns (Element.grid element) = 1.
Proof.
  destruct (layout_options_passed_through (onlyData [appJohn]) [appJohn]
              eq_refl)
    as (calls & element & Hret & _ & Hheight & _ & _ & _ & Hleft & _).
  exists calls, element.
  split; [exact Hret|]. split; [exact Hheight | exact Hleft].
Defined.

(** C7 as the spec words it does not hold: with every option omitted,
    [stickyLeftColumns] reaches the grid as 1, not 0. *)
Lemma sticky_left_columns_default_is_not_zero :
  ∃ element,
    Spreadsheet (onlyData [appJohn]) [appJohn] = ([], inr element)
    ∧ Props.stickyLeftColumns (onlyData [appJohn]) = None
    ∧ ReactGrid.stickyLeftColumns (Element.grid element) = 1
    ∧ ReactGrid.stickyLeftColumns (Element.grid element) ≠ 0.
Proof. eexists. split; [reflexivity|]. by split_and!. Qed.

(** * The column plan *)





Lemma headerOf_spanWidth policy j key info :
  headerOf policy j key = Some info →
  spanWidth info
  = match resultAt policy j key with
    | Some (PCustom c) => orNum (CustomCell.colSpan c) 1
    | _ => 1
    end.
Proof.
  unfold headerOf, resultAt. destruct policy as [f|]; simpl.
  - destruct (f key 0 (Z.of_nat j + 1)); simpl; try done; by intros [= <-].
  - by intros [= <-].
Qed.





(** * Policy results of an unrecognized shape *)

Lemma sameColumn_refl (a : HeaderInfo.t) : sameColumn a a.
Proof. by split_and!. Qed.


Lemma omap_imap_Forall2 {A B} (R : B → B → Prop)
    (g g' : nat → A → option B) (l : list A) :
  (∀ j x, option_Forall2 R (g j x) (g' j x)) →
  Forall2 R (omap id (imap g l)) (omap id (imap g' l)).
Proof.
  revert g g'. induction l as [|x rest IH]; intros g g' Hg; [constructor|].
  rewrite !imap_cons. simpl.
  destruct (Hg 0%nat x) as [y y' Hy|]; simpl.
  - constructor; [done|]. apply IH. intros j z. apply Hg.
  - apply IH. intros j z. apply Hg.
Qed.

Lemma layout_sameColumn (a b : list HeaderInfo.t) st :
  Forall2 sameColumn a b → foldl placeHeader st a = foldl placeHeader st b.
Proof.
  intros Hab. revert st.
  induction Hab as [|x y a b (Hkey & Hwidth & Hheader & _) _ IH]; intros st;
    [done|].
  simpl. rewrite <- IH. f_equal.
  destruct st as [[cur hs] pos]. simpl. by rewrite Hkey, Hwidth, Hheader.
Qed.

Lemma dataCells_sameColumn (data : list Row) (a b : list HeaderInfo.t) pos :
  Forall2 sameColumn a b → dataCells data a pos = dataCells data b pos.
Proof.
  intros Hab. unfold dataCells. f_equal. apply imap_ext.
  intros rowIdx item _.
  induction Hab as [|x y a b (Hkey & _ & _ & Hdata) _ IH]; [done|].
  simpl. by rewrite IH, Hkey, Hdata.
Qed.




(** * Edits *)

Lemma cellCallbacks_elem (c : Cell.t) h :
  h ∈ cellCallbacks c ↔ ∃ k, Cell.props c !! k = Some (PFun h).
Proof.
  unfold cellCallbacks. rewrite list_elem_of_omap. split.
  - intros ([k v] & Hkv%elem_of_map_to_list & Hfun). simpl in Hfun.
    destruct v as [v|h']; [done|]. injection Hfun as ->. by exists k.
  - intros [k Hk]. exists (k, PFun h). split; [|done].
    by apply elem_of_map_to_list.
Qed.

Lemma headerProps_plain value k h : headerProps value !! k ≠ Some (PFun h).
Proof.
  unfold headerProps, disabledStyle. intros Hk.
  repeat (apply lookup_insert_Some in Hk as [[_ Hk]|[_ Hk]]; [done|]).
  by apply lookup_singleton_Some in Hk as [_ Hk].
Qed.

Lemma dataProps_plain value k h : dataProps value !! k ≠ Some (PFun h).
Proof.
  unfold dataProps. intros Hk.
  apply lookup_insert_Some in Hk as [[_ Hk]|[_ Hk]]; [done|].
  by apply lookup_singleton_Some in Hk as [_ Hk].
Qed.

(** A function among the props of a header or data cell made for [info]
    is a function among the props of the Custom spec [info] came from. *)
Lemma headerOf_callbacks policy j key info k h :
  headerOf policy j key = Some info →
  (∃ cur, Cell.props (headerCellAt info cur) !! k = Some (PFun h))
  ∨ (∃ value rowIdx colIdx,
       Cell.props (createDataCell value rowIdx colIdx
                     (HeaderInfo.customCell info)) !! k = Some (PFun h)) →
  ∃ c m, resultAt policy j key = Some (PCustom c)
    ∧ CustomCell.props c = Some m
    ∧ m !! k = Some (PFun h).
Proof.
  unfold headerOf, resultAt. destruct policy as [f|]; simpl.
  - destruct (f key 0 (Z.of_nat j + 1)) as [|s|c| |b|n]; simpl; try done;
      intros [= <-]; simpl.
    + intros [[_ Hk]|(value & _ & _ & Hk)]; simpl in Hk.
      * by apply headerProps_plain in Hk.
      * by apply dataProps_plain in Hk.
    + intros [[_ Hk]|(value & _ & _ & Hk)]; simpl in Hk.
      * destruct (CustomCell.props c) as [m|] eqn:Hm; simpl in Hk.
        -- by exists c, m.
        -- by apply headerProps_plain in Hk.
      * fold (dataProps value) in Hk. rewrite spread_lookup in Hk.
        destruct (CustomCell.props c) as [m|] eqn:Hm; simpl in Hk.
        -- destruct (m !! k) as [v|] eqn:Hmk.
           ++ assert (v = PFun h) as -> by congruence. by exists c, m.
           ++ by apply dataProps_plain in Hk.
        -- by apply dataProps_plain in Hk.
    + intros [[_ Hk]|(value & r & col & Hk)]; simpl in Hk.
      * by apply headerProps_plain in Hk.
      * destruct b; by apply dataProps_plain in Hk.
    + intros [[_ Hk]|(value & r & col & Hk)].
      * by apply headerProps_plain in Hk.
      * unfold createDataCell in Hk. simpl in Hk.
        destruct (n =? 0); by apply dataProps_plain in Hk.
  - intros [= <-]. simpl. intros [[_ Hk]|(value & _ & _ & Hk)]; simpl in Hk.
    + by apply headerProps_plain in Hk.
    + by apply dataProps_plain in Hk.
Qed.

Lemma headerCellsOf_elem (infos : list HeaderInfo.t) c :
  c ∈ headerCellsOf infos →
  ∃ info cur, info ∈ infos ∧ c = headerCellAt info cur.
Proof.
  rewrite headerCellsOf_starts.
  intros [n Hn]%list_elem_of_lookup. rewrite lookup_zip_with in Hn.
  destruct (infos !! n) as [info|] eqn:Hinfo; [|done]. simpl in Hn.
  destruct (columnStarts 1 infos !! n) as [cur|]; [|done].
  injection Hn as <-. exists info, cur. split; [|done].
  by eapply list_elem_of_lookup_2.
Qed.

Lemma dataCells_elem_inv (data : list Row) (infos : list HeaderInfo.t) pos c :
  c ∈ dataCells data infos pos →
  ∃ info value rowIdx colIdx, info ∈ infos
    ∧ c = createDataCell value rowIdx colIdx (HeaderInfo.customCell info).
Proof.
  unfold dataCells. intros (l & Hl & Hc)%list_elem_of_In%in_concat.
  apply list_elem_of_In, list_elem_of_lookup in Hl as [i Hi].
  rewrite list_lookup_imap in Hi.
  destruct (data !! i) as [item|]; [|done]. injection Hi as <-.
  apply list_elem_of_In, list_elem_of_fmap in Hc as (info & -> & Hin).
  by eexists info, _, _, _.
Qed.

(** C8, as the code has it.  The component hands the grid no function of
    its own: whenever the pass returns, every function among the props of
    a returned cell is a function the policy put in the props of a Custom
    spec.  Without a policy an edit of any cell reaches no row-store
    call: no update, no append, no remove. *)
Theorem edits_reach_no_store_call policy (data : list Row) :
  neverUndefined policy (discoveredKeys data) = true →
  ∃ calls cells,
    getCells data policy = (calls, inr cells)
    ∧ (∀ cell h, cell ∈ cells → h ∈ cellCallbacks cell →
         ∃ j key c m k,
           discoveredKeys data !! j = Some key
           ∧ resultAt policy j key = Some (PCustom c)
           ∧ CustomCell.props c = Some m
           ∧ m !! k = Some (PFun h))
    ∧ (policy = None →
       ∀ cell newText, cell ∈ cells → editCalls cell newText = []).
Proof.
  intros Hdef.
  assert (∃ calls cells,
    getCells data policy = (calls, inr cells)
    ∧ ∀ cell h, cell ∈ cells → h ∈ cellCallbacks cell →
        ∃ j key c m k,
          discoveredKeys data !! j = Some key
          ∧ resultAt policy j key = Some (PCustom c)
          ∧ CustomCell.props c = Some m
          ∧ m !! k = Some (PFun h)) as (calls & cells & Hret & Hhost).
  { destruct data as [|firstItem rest].
    { exists [], []. split; [done|]. by intros cell h ?%elem_of_nil. }
    simpl in Hdef. eexists _, _. split; [by apply getCells_returns|].
    intros cell h Hcell [k Hk]%cellCallbacks_elem.
    apply elem_of_cons in Hcell as [->|Hcell];
      [by apply headerProps_plain in Hk|].
    apply elem_of_app in Hcell as [Hcell|Hcell].
    { unfold rowNumberCells in Hcell.
      apply list_elem_of_lookup in Hcell as [i Hi].
      rewrite list_lookup_imap in Hi.
      destruct ((firstItem :: rest) !! i); [|done]. injection Hi as <-.
      by apply headerProps_plain in Hk. }
    assert (∃ info, info ∈ headersOf policy (getObjectKeys firstItem)
      ∧ ((∃ cur, Cell.props (headerCellAt info cur) !! k = Some (PFun h))
         ∨ (∃ value rowIdx colIdx,
              Cell.props (createDataCell value rowIdx colIdx
                            (HeaderInfo.customCell info)) !! k
              = Some (PFun h)))) as (info & Hin & Hfun).
    { apply elem_of_app in Hcell as [Hcell|Hcell].
      - apply headerCellsOf_elem in Hcell as (info & cur & Hin & ->).
        exists info. split; [done|]. left. by exists cur.
      - apply dataCells_elem_inv in Hcell
          as (info & value & rowIdx & colIdx & Hin & ->).
        exists info. split; [done|]. right. by exists value, rowIdx, colIdx. }
    apply elem_of_headersOf in Hin as (j & key & Hj & Hinfo).
    destruct (headerOf_callbacks _ _ _ _ _ _ Hinfo Hfun) as (c & m & Hc & Hm & Hmk).
    by exists j, key, c, m, k. }
  exists calls, cells. split_and!; [done|done|].
  intros -> cell newText Hcell. unfold editCalls.
  assert (cellCallbacks cell = []) as ->; [|done].
  apply elem_of_nil_inv. intros h Hh.
  by destruct (Hhost cell h Hcell Hh) as (j & key & c & m & k & _ & Hres & _).
Qed.

Lemma edits_reach_no_store_call_witness :
  ∃ calls cells,
    getCells [appJohn; appJane] None = (calls, inr cells)
    ∧ ∀ cell newText, cell ∈ cells → editCalls cell newText = [].
Proof.
  destruct (edits_reach_no_store_call None [appJohn; appJane] eq_refl)
    as (calls & cells & Hret & _ & Hquiet).
  exists calls, cells. split; [exact Hret | exact (Hquiet eq_refl)].
Defined.

(** C8 as the spec words it does not hold: an edit of the data cell at
    row ordinal 1 issues no update call at all. *)
Lemma edit_issues_no_update :
  let cell := createDataCell (JStr "John Doe") 1 1 None in
  (∃ cells, getCells [appJohn] None = ([], inr cells) ∧ cell ∈ cells)
  ∧ Cell.Template cell = TextCell
  ∧ editCalls cell "Johnny" = []
  ∧ ∀ row, editCalls cell "Johnny" ≠ [update 1 row].
Proof.
  split_and!; [|done|by vm_compute|by vm_compute].
  eexists. split; [reflexivity|].
  apply list_elem_of_In. vm_compute. tauto.
Qed.

(** * Hidden columns *)

Lemma headerOf_ext (f f' : Policy) j key :
  f' key 0 (Z.of_nat j + 1) = f key 0 (Z.of_nat j + 1) →
  headerOf (Some f') j key = headerOf (Some f) j key.
Proof. unfold headerOf. simpl. by intros ->. Qed.

Lemma headerOf_hidden (f : Policy) j key :
  f key 0 (Z.of_nat j + 1) = PNull → headerOf (Some f) j key = None.
Proof. unfold headerOf. simpl. by intros ->. Qed.

Lemma headersOf_split policy (k1 k2 : list string) key :
  headersOf policy (k1 ++ key :: k2)
  = headersOf policy k1
    ++ option_list (headerOf policy (length k1) key)
    ++ omap id (imap (λ n, headerOf policy (length k1 + S n)) k2).
Proof.
  unfold headersOf. rewrite imap_app, omap_app, imap_cons. f_equal.
  rewrite Nat.add_0_r. simpl.
  by destruct (headerOf policy (length k1) key).
Qed.

Lemma fieldName_planOf (infos : list HeaderInfo.t) :
  fieldName <$> planOf infos = HeaderInfo.key <$> infos.
Proof. unfold planOf. rewrite <- list_fmap_compose. done. Qed.

Lemma hidden_not_resolved (f : Policy) allKeys j key :
  NoDup allKeys →
  allKeys !! j = Some key →
  f key 0 (Z.of_nat j + 1) = PNull →
  key ∉ HeaderInfo.key <$> headersOf (Some f) allKeys.
Proof.
  intros Hnd Hj Hnull (info & Hkey & Hin)%list_elem_of_fmap.
  apply elem_of_headersOf in Hin as (j' & key' & Hj' & Hinfo).
  pose proof (headerOf_key _ _ _ _ Hinfo) as Hk. rewrite <- Hkey in Hk.
  subst key'. assert (j' = j) as -> by (eapply NoDup_lookup; eauto).
  by rewrite (headerOf_hidden _ _ _ Hnull) in Hinfo.
Qed.

Lemma length_cells (data : list Row) (infos : list HeaderInfo.t) :
  length (rowNumberHeaderCell :: rowNumberCells data ++ headerCellsOf infos
            ++ dataCells data infos (columnPositionsOf infos))
  = (1 + length data + length infos + length data * length infos)%nat.
Proof.
  rewrite length_cons, !length_app, length_rowNumberCells,
    length_headerCellsOf, length_dataCells. lia.
Qed.

(** C2.  When the policy [f] answers the [j]-th key with [null], header
    resolution returns no header for it (the column is Hidden), the key
    is in no entry of the column plan, and the output has a header cell
    per plan entry and a data cell per row and plan entry.  Against any
    policy [f'] that shows this column and answers as [f] elsewhere, the
    plan under [f] is the plan under [f'] with this one entry removed and
    the absolute index of every later entry lowered by the entry's span
    width (1 unless a Custom spec says otherwise), and the output under
    [f] has 1 + N cells fewer: the header cell and the N data cells of
    the column. *)
Theorem hidden_column_removed (f f' : Policy) firstItem rest j key :
  let data := firstItem :: rest in
  let allKeys := getObjectKeys firstItem in
  NoDup allKeys →
  neverUndefined (Some f) allKeys = true →
  allKeys !! j = Some key →
  f key 0 (Z.of_nat j + 1) = PNull →
  (∀ k r c, k ≠ key → f' k r c = f k r c) →
  isNull (f' key 0 (Z.of_nat j + 1)) = false →
  isUndefined (f' key 0 (Z.of_nat j + 1)) = false →
  processHeaderInfo key (Z.of_nat j) (Some f)
  = ([Called key 0 (Z.of_nat j + 1)], inr None)
  ∧ ∃ calls cells cells' before shown after,
      getCells data (Some f) = (calls, inr cells)
      ∧ getCells data (Some f') = (calls, inr cells')
      ∧ columnPlan data (Some f') = before ++ shown :: after
      ∧ fieldName shown = key
      ∧ planSpanWidth shown
        = match f' key 0 (Z.of_nat j + 1) with
          | PCustom c => orNum (CustomCell.colSpan c) 1
          | _ => 1
          end
      ∧ columnPlan data (Some f)
        = before ++ (shiftLeft (planSpanWidth shown) <$> after)
      ∧ (key ∉ fieldName <$> columnPlan data (Some f))
      ∧ (∃ headers cellsOfRows,
           cells = rowNumberHeaderCell :: rowNumberCells data
                     ++ headers ++ cellsOfRows
           ∧ length headers = length (columnPlan data (Some f))
           ∧ length cellsOfRows
             = (length data * length (columnPlan data (Some f)))%nat)
      ∧ length cells' = (length cells + 1 + length data)%nat.
Proof.
  intros data allKeys Hnd Hdef Hj Hnull Hsame Hshown Hdefined.
  split; [simpl; by rewrite Hnull|].
  assert (neverUndefined (Some f') allKeys = true) as Hdef'.
  { apply allResults_intro. intros j' key' Hj'.
    destruct (decide (key' = key)) as [->|Hne].
    - assert (j' = j) as -> by (eapply NoDup_lookup; eauto).
      by rewrite Hdefined.
    - rewrite Hsame by done.
      pose proof (neverUndefined_lookup _ _ _ _ Hdef Hj') as Hu.
      by destruct (f key' 0 (Z.of_nat j' + 1)). }
  pose proof (take_drop_middle _ _ _ Hj) as Hsplit.
  set (k1 := take j allKeys) in *. set (k2 := drop (S j) allKeys) in *.
  assert (length k1 = j) as Hlen.
  { unfold k1. rewrite length_take. apply lookup_lt_Some in Hj. lia. }
  assert (∀ n k, k1 !! n = Some k → k ≠ key) as Hk1.
  { intros n k Hn ->. rewrite <- Hsplit in Hnd.
    apply NoDup_app in Hnd as (_ & Hdisj & _).
    apply (Hdisj key); [by eapply list_elem_of_lookup_2|left]. }
  assert (∀ n k, k2 !! n = Some k → k ≠ key) as Hk2.
  { intros n k Hn ->. rewrite <- Hsplit in Hnd.
    apply NoDup_app in Hnd as (_ & _ & [Hfresh _]%NoDup_cons).
    apply Hfresh. by eapply list_elem_of_lookup_2. }
  destruct (headerOf_shown (Some f') j key) as [shownInfo HshownInfo].
  { intros g [= <-]. split; intros Heq; by rewrite Heq in *. }
  set (A := headersOf (Some f) k1).
  set (B := omap id (imap (λ n, headerOf (Some f) (j + S n)) k2)).
  assert (headersOf (Some f) allKeys = A ++ B) as Hinfos.
  { rewrite <- Hsplit, headersOf_split, Hlen.
    by rewrite (headerOf_hidden _ _ _ Hnull). }
  assert (headersOf (Some f') allKeys = A ++ shownInfo :: B) as Hinfos'.
  { rewrite <- Hsplit, headersOf_split, Hlen, HshownInfo. simpl.
    assert (imap (headerOf (Some f')) k1 = imap (headerOf (Some f)) k1) as Hh1.
    { apply imap_ext. intros n k Hn. apply headerOf_ext, Hsame. by eapply Hk1. }
    assert (imap (λ n, headerOf (Some f') (j + S n)) k2
            = imap (λ n, headerOf (Some f) (j + S n)) k2) as Hh2.
    { apply imap_ext. intros n k Hn. apply headerOf_ext, Hsame. by eapply Hk2. }
    unfold A, B, headersOf. by rewrite Hh1, Hh2. }
  pose proof (headersOf_NoDup (Some f) allKeys Hnd) as HndA.
  pose proof (headersOf_NoDup (Some f') allKeys Hnd) as HndB.
  set (s := 1 + totalWidth A).
  exists (concat (imap (callsAt (Some f)) allKeys)).
  eexists _, _.
  exists (planFrom 1 A),
    (Planned (HeaderInfo.key shownInfo) s (spanWidth shownInfo)),
    (planFrom (s + spanWidth shownInfo) B).
  assert (columnPlan data (Some f) = planFrom 1 A ++ planFrom s B) as Hplan.
  { unfold data. rewrite columnPlan_headersOf by done. fold allKeys.
    rewrite planOf_planFrom by done. by rewrite Hinfos, planFrom_app. }
  split_and!.
  - by apply getCells_returns.
  - unfold data. rewrite (getCells_returns (Some f')) by done. reflexivity.
  - unfold data. rewrite columnPlan_headersOf by done. fold allKeys.
    rewrite planOf_planFrom by done. by rewrite Hinfos', planFrom_app.
  - by apply headerOf_key in HshownInfo.
  - simpl. by rewrite (headerOf_spanWidth _ _ _ _ HshownInfo).
  - rewrite Hplan. simpl. f_equal. apply planFrom_shift.
  - unfold data. rewrite columnPlan_headersOf by done. fold allKeys.
    rewrite fieldName_planOf. by eapply hidden_not_resolved.
  - eexists _, _. split; [reflexivity|].
    assert (length (columnPlan data (Some f))
            = length (headersOf (Some f) allKeys)) as ->.
    { unfold data. rewrite columnPlan_headersOf by done.
      unfold planOf. by rewrite length_map. }
    by rewrite length_headerCellsOf, length_dataCells.
  - fold allKeys. rewrite !length_cells, Hinfos, Hinfos'.
    rewrite !length_app. simpl. lia.
Qed.

Lemma hidden_column_removed_witness :
  ∃ calls cells cells',
    getCells [appJohn; appJane] (Some hideName) = (calls, inr cells)
    ∧ getCells [appJohn; appJane] (Some appPolicy) = (calls, inr cells')
    ∧ ("name" ∉ fieldName <$> columnPlan [appJohn; appJane] (Some hideName))
    ∧ length cells' = (length cells + 1 + 2)%nat.
Proof.
  destruct (hidden_column_removed hideName appPolicy appJohn [appJane]
              0 "name")
    as (_ & calls & cells & cells' & before & shown & after
        & Hret & Hret' & _ & _ & _ & _ & Hgone & _ & Hcount).
  - apply (bool_decide_unpack _). vm_compute. exact I.
  - reflexivity.
  - reflexivity.
  - reflexivity.
  - intros k r c Hne. unfold hideName.
    destruct (String.eqb_spec k "name") as [Heq|_]; [by destruct Hne|done].
  - reflexivity.
  - reflexivity.
  - exists calls, cells, cells'.
    split; [exact Hret|]. split; [exact Hret'|].
    split; [exact Hgone | exact Hcount].
Defined.

(** * Further properties of the pass *)

(** ** When the pass throws *)

Lemma processHeaderInfo_throws (f : Policy) colIdx key :
  f key 0 (Z.of_nat colIdx + 1) = PUndefined →
  processHeaderInfo key (Z.of_nat colIdx) (Some f)
  = ([Called key 0 (Z.of_nat colIdx + 1)], inl TypeError).
Proof. intros Hres. simpl. by rewrite Hres. Qed.

Lemma isUndefined_true r : isUndefined r = true → r = PUndefined.
Proof. by destruct r. Qed.

Lemma mapM_from_headers (f : Policy) (keys : list string) (i : nat) :
  mapM_from (λ key colIdx, processHeaderInfo key (Z.of_nat colIdx) (Some f))
            i keys
  = match undefinedFrom f i keys with
    | Some n =>
        (take (S n) (imap (λ j key, Called key 0 (Z.of_nat (i + j) + 1)) keys),
         inl TypeError)
    | None =>
        (imap (λ j key, Called key 0 (Z.of_nat (i + j) + 1)) keys,
         inr (imap (λ j, headerOf (Some f) (i + j)) keys))
    end.
Proof.
  revert i. induction keys as [|key rest IH]; intros i; [done|].
  cbn [mapM_from undefinedFrom]. rewrite !imap_cons, !Nat.add_0_r.
  assert (∀ C (h : nat → string → C),
    imap ((λ j, h (i + j)%nat) ∘ S) rest = imap (λ j, h (S i + j)%nat) rest)
    as Hshift.
  { intros C h. apply imap_ext. intros j y _. simpl. f_equal. lia. }
  destruct (isUndefined (f key 0 (Z.of_nat i + 1))) eqn:Hu.
  - apply isUndefined_true in Hu.
    rewrite (processHeaderInfo_throws _ _ _ Hu). simpl. by rewrite take_0.
  - rewrite processHeaderInfo_returns
      by (intros g [= <-] Heq; by rewrite Heq in Hu).
    simpl. rewrite IH.
    rewrite (Hshift _ (λ j key, Called key 0 (Z.of_nat j + 1))).
    rewrite (Hshift _ (headerOf (Some f))).
    destruct (undefinedFrom f (S i) rest) as [n|]; simpl; [done|].
    by rewrite app_nil_r.
Qed.

Lemma firstUndefined_None policy allKeys :
  firstUndefined policy allKeys = None ↔ neverUndefined policy allKeys = true.
Proof.
  destruct policy as [f|]; simpl; [|done].
  change 0%nat with (0 + 0)%nat at 1.
  assert (∀ i keys,
    undefinedFrom f i keys = None ↔
    forallb (λ r, negb (isUndefined r))
      (imap (λ j key, f key 0 (Z.of_nat (i + j) + 1)) keys) = true) as Hgen.
  { intros i keys. revert i.
    induction keys as [|key rest IH]; intros i; [done|].
    rewrite imap_cons. cbn [undefinedFrom forallb]. rewrite Nat.add_0_r.
    destruct (isUndefined (f key 0 (Z.of_nat i + 1))); simpl; [done|].
    rewrite fmap_None, (IH (S i)).
    assert (imap ((λ j key0, f key0 0 (Z.of_nat (i + j) + 1)) ∘ S) rest
            = imap (λ j key0, f key0 0 (Z.of_nat (S i + j) + 1)) rest) as ->;
      [|done].
    apply imap_ext. intros j y _. simpl. do 2 f_equal. lia. }
  apply (Hgen 0%nat).
Qed.


(** ** The reserved [id] key *)

Lemma getCells_calls policy firstItem rest :
  ∃ n, (getCells (firstItem :: rest) policy).1
       = take n (concat (imap (callsAt policy) (getObjectKeys firstItem))).
Proof.
  destruct (neverUndefined policy (getObjectKeys firstItem)) eqn:Hdef.
  - exists (length (concat (imap (callsAt policy) (getObjectKeys firstItem)))).
    rewrite getCells_returns by done. simpl. by rewrite firstn_all.
  - destruct policy as [f|]; [|done].
    destruct (undefinedFrom f 0 (getObjectKeys firstItem)) as [n|] eqn:Hfirst.
    + exists (S n). unfold getCells, resolveHeaders, mapM_index.
      rewrite mapM_from_headers, Hfirst. simpl. do 2 f_equal.
      symmetry. apply (concat_imap_singleton
        (λ j key, Called key 0 (Z.of_nat j + 1))).
    + assert (firstUndefined (Some f) (getObjectKeys firstItem) = None) as Hnone
        by done.
      apply firstUndefined_None in Hnone. congruence.
Qed.

Lemma elem_of_calls policy allKeys call :
  call ∈ concat (imap (callsAt policy) allKeys) →
  ∃ j, allKeys !! j = Some (call_key call)
    ∧ call_rowIndex call = 0
    ∧ call_colIndex call = Z.of_nat j + 1.
Proof.
  destruct policy as [f|]; simpl.
  - rewrite (concat_imap_singleton (λ j key, Called key 0 (Z.of_nat j + 1))).
    intros [j Hj]%list_elem_of_lookup. rewrite list_lookup_imap in Hj.
    destruct (allKeys !! j) as [key|] eqn:Hkey; [|done].
    injection Hj as <-. by exists j.
  - assert (∀ g : nat → string → list PolicyCall,
              (∀ j key, g j key = []) → concat (imap g allKeys) = []) as Hnil.
    { induction allKeys as [|k r IH]; intros g Hg; [done|].
      rewrite imap_cons. simpl. rewrite Hg. apply IH. intros j key. apply Hg. }
    rewrite Hnil by done. by intros ?%elem_of_nil.
Qed.

(** X2.  The key [id], which the field array adds to every row, is
    never a column, whatever the policy does: it is not among the
    discovered keys while every other key of the first row is, the policy
    is never called for it (every call is for a discovered key, with row
    index 0), and no entry of the column plan carries it (the fields of
    the plan are discovered keys, in their order). *)
Theorem id_is_never_a_column policy firstItem rest :
  let data := firstItem :: rest in
  let allKeys := getObjectKeys firstItem in
  ("id" ∉ allKeys)
  ∧ (∀ key, key ∈ Object_keys firstItem → key ≠ "id" → key ∈ allKeys)
  ∧ (∀ call, call ∈ (getCells data policy).1 →
       call_key call ≠ "id" ∧ call_key call ∈ allKeys
       ∧ call_rowIndex call = 0)
  ∧ ("id" ∉ fieldName <$> columnPlan data policy)
  ∧ (fieldName <$> columnPlan data policy) `sublist_of` allKeys.
Proof.
  intros data allKeys.
  assert ("id" ∉ allKeys) as Hid.
  { unfold allKeys, getObjectKeys. rewrite list_elem_of_filter. by intros [? _]. }
  assert ((fieldName <$> columnPlan data policy) `sublist_of` allKeys) as Hsub.
  { destruct (neverUndefined policy allKeys) eqn:Hdef.
    - unfold data. rewrite columnPlan_headersOf by done.
      rewrite fieldName_planOf. apply omap_imap_keys_sublist.
      intros j key info. apply headerOf_key.
    - destruct policy as [f|]; [|done].
      unfold data, columnPlan, resolveHeaders, mapM_index. fold allKeys.
      rewrite mapM_from_headers.
      destruct (undefinedFrom f 0 allKeys) as [n|] eqn:Hfirst;
        [apply sublist_nil_l|].
      assert (firstUndefined (Some f) allKeys = None) as Hnone by done.
      apply firstUndefined_None in Hnone. congruence. }
  split_and!; [done| | |by intros Hin%(sublist_subseteq _ _ Hsub)|done].
  - intros key Hkey Hne. unfold allKeys, getObjectKeys.
    by apply list_elem_of_filter.
  - intros call Hcall. destruct (getCells_calls policy firstItem rest) as [n Hn].
    unfold data in Hcall. rewrite Hn in Hcall.
    apply (subseteq_take n) in Hcall.
    apply elem_of_calls in Hcall as (j & Hj & Hrow & _).
    apply list_elem_of_lookup_2 in Hj. fold allKeys in Hj.
    split_and!; [|done|done]. intros Heq. by rewrite Heq in Hj.
Qed.

(** ** Row numbers and headers *)

(** X3.  Whatever the rows hold and whatever the policy answers, a pass
    that returns puts the corner cell with value "#" at [(0, 0)] and, for
    the row at 0-based position [i], a row-number cell at [(i+1, 0)]
    whose value is the decimal text of [i+1]; both are non-editable cells
    with the disabled background and no spans. *)
Theorem row_number_cells_emitted policy firstItem rest i item :
  let data := firstItem :: rest in
  let allKeys := getObjectKeys firstItem in
  neverUndefined policy allKeys = true →
  data !! i = Some item →
  ∃ calls cells,
    getCells data policy = (calls, inr cells)
    ∧ {| Cell.rowIndex := 0; Cell.colIndex := 0;
         Cell.Template := NonEditableCell;
         Cell.props := headerProps "#";
         Cell.rowSpan := None; Cell.colSpan := None;
         Cell.isFocusable := None; Cell.isSelectable := None |} ∈ cells
    ∧ {| Cell.rowIndex := Z.of_nat i + 1; Cell.colIndex := 0;
         Cell.Template := NonEditableCell;
         Cell.props := headerProps (pretty (Z.of_nat i + 1));
         Cell.rowSpan := None; Cell.colSpan := None;
         Cell.isFocusable := None; Cell.isSelectable := None |} ∈ cells
    ∧ ∀ value,
        headerProps value !! "value" = Some (PVal (JStr value))
        ∧ headerProps value !! "nonEditable" = Some (PVal (JBool true))
        ∧ headerProps value !! "style"
          = Some (PVal (JObj [("backgroundColor", JStr "#EEEEEE")])).
Proof.
  intros data allKeys Hdef Hi.
  eexists _, _. split; [by apply getCells_returns|]. split_and!.
  - apply elem_of_cons. by left.
  - apply elem_of_cons. right. apply elem_of_app. left.
    unfold rowNumberCells. apply list_elem_of_lookup. exists i.
    unfold data in Hi. by rewrite list_lookup_imap, Hi.
  - done.
Qed.

Lemma row_number_cells_emitted_witness :
  ∃ calls cells,
    getCells [appJohn; appJane] (Some appPolicy) = (calls, inr cells)
    ∧ {| Cell.rowIndex := 2; Cell.colIndex := 0;
         Cell.Template := NonEditableCell;
         Cell.props := headerProps "2";
         Cell.rowSpan := None; Cell.colSpan := None;
         Cell.isFocusable := None; Cell.isSelectable := None |} ∈ cells.
Proof.
  destruct (row_number_cells_emitted (Some appPolicy) appJohn [appJane]
              1 appJane eq_refl eq_refl)
    as (calls & cells & Hret & _ & Hcell & _).
  exists calls, cells. split; [exact Hret | exact Hcell].
Defined.

(** X4.  For a non-hidden column [key] with absolute column index [p],
    a pass that returns puts a header cell at [(0, p)].  Without a policy
    the header shows the field name; for a string answer it shows that
    string (the empty string too); both are non-editable cells with the
    disabled background.  For a Custom spec [c] the header has [c]'s
    template (non-editable when [c] names none), [c]'s spans and flags,
    and as props [c]'s props as they are, not merged with any default;
    only when [c] has no props are they the default header props, whose
    value is [c]'s title, or the field name when the title is absent or
    empty.  The column index [processHeaderInfo] first gave the cell is
    replaced by [p]. *)
Theorem header_cell_per_column policy firstItem rest j key e :
  let data := firstItem :: rest in
  let allKeys := getObjectKeys firstItem in
  NoDup allKeys →
  neverUndefined policy allKeys = true →
  allKeys !! j = Some key →
  e ∈ columnPlan data policy →
  fieldName e = key →
  let p := absoluteColumnIndex e in
  ∃ calls cells,
    getCells data policy = (calls, inr cells)
    ∧ match resultAt policy j key with
      | Some (PCustom c) =>
          {| Cell.rowIndex := 0;
             Cell.colIndex := p;
             Cell.Template := default NonEditableCell (CustomCell.template c);
             Cell.props :=
               match CustomCell.props c with
               | Some props => props
               | None =>
                   headerProps
                     match CustomCell.title c with
                     | Some title => if String.eqb title "" then key else title
                     | None => key
                     end
               end;
             Cell.rowSpan := CustomCell.rowSpan c;
             Cell.colSpan := CustomCell.colSpan c;
             Cell.isFocusable := CustomCell.isFocusable c;
             Cell.isSelectable := CustomCell.isSelectable c |} ∈ cells
      | Some (PString s) =>
          {| Cell.rowIndex := 0; Cell.colIndex := p;
             Cell.Template := NonEditableCell;
             Cell.props := headerProps s;
             Cell.rowSpan := None; Cell.colSpan := None;
             Cell.isFocusable := None; Cell.isSelectable := None |} ∈ cells
      | _ =>
          {| Cell.rowIndex := 0; Cell.colIndex := p;
             Cell.Template := NonEditableCell;
             Cell.props := headerProps key;
             Cell.rowSpan := None; Cell.colSpan := None;
             Cell.isFocusable := None; Cell.isSelectable := None |} ∈ cells
      end.
Proof.
  intros data allKeys Hnd Hdef Hj He Hkey p.
  unfold data in He. rewrite columnPlan_headersOf in He by done.
  destruct (planned_column _ _ _ _ _ Hnd Hj He Hkey)
    as (info & Hin & Hinfo & Hk & Hp & _).
  pose proof (headerCell_elem _ info (headersOf_NoDup _ _ Hnd) Hin) as Hcell.
  rewrite Hk, <- Hp in Hcell. fold p in Hcell.
  apply (header_cell_in_output data) in Hcell.
  eexists _, _. split; [by apply getCells_returns|].
  unfold headerOf, resultAt in *. destruct policy as [f|]; simpl in *.
  - destruct (f key 0 (Z.of_nat j + 1)) as [|s|c| |b|n];
      simpl in Hinfo; try done; by injection Hinfo as <-.
  - by injection Hinfo as <-.
Qed.

Lemma header_cell_per_column_witness :
  ∃ calls cells,
    getCells [appJohn; appJane] (Some appPolicy) = (calls, inr cells)
    ∧ {| Cell.rowIndex := 0; Cell.colIndex := 3;
         Cell.Template := NonEditableCell;
         Cell.props := headerProps "City";
         Cell.rowSpan := None; Cell.colSpan := Some 2;
         Cell.isFocusable := None; Cell.isSelectable := None |} ∈ cells.
Proof.
  destruct (header_cell_per_column (Some appPolicy) appJohn [appJane]
              2 "city" (Planned "city" 3 2))
    as (calls & cells & Hret & Hcell).
  - apply (bool_decide_unpack _). vm_compute. exact I.
  - reflexivity.
  - reflexivity.
  - apply list_elem_of_In. vm_compute. tauto.
  - reflexivity.
  - exists calls, cells. split; [exact Hret | exact Hcell].
Defined.

(** ** Counting with hidden columns *)

Lemma dataCells_no_columns (data : list Row) pos : dataCells data [] pos = [].
Proof.
  apply nil_length_inv. rewrite length_dataCells. simpl. lia.
Qed.

(** X5.  A pass that returns gives (1 + N) · (1 + V) cells, where N is
    the number of rows and V the number of columns of the plan, which is
    at most the number of discovered keys; when the policy hides every
    column the output is the corner cell and the N row-number cells and
    nothing else. *)
Theorem cell_count_with_hidden_columns policy firstItem rest :
  let data := firstItem :: rest in
  let allKeys := getObjectKeys firstItem in
  let N := length data in
  let V := length (columnPlan data policy) in
  neverUndefined policy allKeys = true →
  ∃ calls cells,
    getCells data policy = (calls, inr cells)
    ∧ length cells = ((1 + N) * (1 + V))%nat
    ∧ (V ≤ length allKeys)%nat
    ∧ (V = 0%nat → cells = rowNumberHeaderCell :: rowNumberCells data).
Proof.
  intros data allKeys N V Hdef.
  assert (V = length (headersOf policy allKeys)) as HV.
  { unfold V, data. rewrite columnPlan_headersOf by done.
    unfold planOf. by rewrite length_map. }
  eexists _, _. split; [by apply getCells_returns|]. fold allKeys.
  split_and!.
  - rewrite length_cells, <- HV. unfold N, data. lia.
  - rewrite HV, <- (length_fmap HeaderInfo.key).
    apply sublist_length, omap_imap_keys_sublist.
    intros j key info. apply headerOf_key.
  - rewrite HV. intros ->%nil_length_inv.
    rewrite dataCells_no_columns.
    change (headerCellsOf []) with (@nil Cell.t). by rewrite !app_nil_r.
Qed.

Lemma cell_count_with_hidden_columns_witness :
  ∃ calls cells,
    getCells [appJohn; appJane] (Some hideName) = (calls, inr cells)
    ∧ length cells = 15%nat.
Proof.
  destruct (cell_count_with_hidden_columns (Some hideName) appJohn [appJane]
              eq_refl)
    as (calls & cells & Hret & Hlen & _).
  exists calls, cells. split; [exact Hret | exact Hlen].
Defined.

(** ** Closed forms of the column plan *)

Lemma planFrom_total (g : nat → string → option HeaderInfo.t)
    (keys : list string) (start : Z) :
  (∀ j key, keys !! j = Some key →
     ∃ info, g j key = Some info
       ∧ HeaderInfo.key info = key ∧ spanWidth info = 1) →
  planFrom start (omap id (imap g keys))
  = imap (λ j key, Planned key (start + Z.of_nat j) 1) keys.
Proof.
  revert g start. induction keys as [|key rest IH]; intros g start Hg; [done|].
  rewrite !imap_cons. simpl.
  destruct (Hg 0%nat key eq_refl) as (info & -> & Hkey & Hwidth). simpl.
  rewrite Hkey, Hwidth, Z.add_0_r. f_equal.
  rewrite (IH (g ∘ S)) by (intros j k Hj; apply (Hg (S j) k Hj)).
  apply imap_ext. intros j k _. simpl. f_equal. lia.
Qed.

(** X6.  When the policy (if there is one) hides no column and sets no
    colSpan, the column plan is the discovered keys in their order, the
    key at 0-based position [j] at absolute column index [j+1] with span
    width 1: the column index the policy is called with is then the
    column the field ends at. *)
Theorem plan_without_hidden_columns_or_spans policy firstItem rest :
  let data := firstItem :: rest in
  let allKeys := getObjectKeys firstItem in
  NoDup allKeys →
  neverUndefined policy allKeys = true →
  neverHidden policy allKeys = true →
  noColSpan policy allKeys = true →
  columnPlan data policy
  = imap (λ j key, Planned key (Z.of_nat j + 1) 1) allKeys.
Proof.
  intros data allKeys Hnd Hdef Hshown Hspans.
  unfold data. rewrite columnPlan_headersOf by done. fold allKeys.
  rewrite planOf_planFrom by by apply headersOf_NoDup.
  unfold headersOf. rewrite planFrom_total.
  - apply imap_ext. intros j key _. f_equal. lia.
  - intros j key Hj.
    destruct (headerOf_shown policy j key) as [info Hinfo].
    { intros f ->. split.
      - intros Heq. pose proof (allResults_lookup _ _ _ _ _ Hshown Hj) as H.
        by rewrite Heq in H.
      - by eapply neverUndefined_lookup. }
    exists info. split; [done|]. split; [by eapply headerOf_key|].
    rewrite (headerOf_spanWidth _ _ _ _ Hinfo). unfold resultAt.
    destruct policy as [f|]; [|done]. simpl.
    pose proof (allResults_lookup _ _ _ _ _ Hspans Hj) as Hc.
    destruct (f key 0 (Z.of_nat j + 1)) as [|s|c| |b|n]; try done.
    simpl in Hc. apply bool_decide_eq_true in Hc. by rewrite Hc.
Qed.

Lemma plan_without_hidden_columns_or_spans_witness :
  columnPlan [appJohn; appJane] None
  = [Planned "name" 1 1; Planned "age" 2 1; Planned "city" 3 1;
     Planned "occupation" 4 1; Planned "salary" 5 1].
Proof.
  assert (NoDup (getObjectKeys appJohn)) as Hnd.
  { apply (bool_decide_unpack _). vm_compute. exact I. }
  exact (plan_without_hidden_columns_or_spans None appJohn [appJane]
           Hnd eq_refl eq_refl eq_refl).
Defined.





(** ** Coordinates *)

Lemma coordinate_createDataCell value rowIdx colIdx customCell :
  coordinate (createDataCell value rowIdx colIdx customCell) = (rowIdx, colIdx).
Proof. unfold createDataCell. by destruct (truthyCustom customCell). Qed.





Lemma elem_of_concat_imap {A B} (g : nat → A → list B) (l : list A) b :
  b ∈ concat (imap g l) ↔ ∃ j y, l !! j = Some y ∧ b ∈ g j y.
Proof.
  rewrite list_elem_of_In, in_concat. split.
  - intros (k & Hk & Hb). apply list_elem_of_In, list_elem_of_lookup in Hk
      as [j Hj].
    rewrite list_lookup_imap in Hj.
    destruct (l !! j) as [y|] eqn:Hy; [|done]. injection Hj as <-.
    exists j, y. split; [done|]. by apply list_elem_of_In.
  - intros (j & y & Hy & Hb). exists (g j y). split.
    + apply list_elem_of_In, list_elem_of_lookup. exists j.
      by rewrite list_lookup_imap, Hy.
    + by apply list_elem_of_In.
Qed.





(** ** Nothing else is emitted *)

Lemma headerCellsOf_elem_planned (infos : list HeaderInfo.t) c :
  NoDup (HeaderInfo.key <$> infos) →
  c ∈ headerCellsOf infos →
  ∃ info, info ∈ infos
    ∧ c = headerCellAt info
            (positionOf (columnPositionsOf infos) (HeaderInfo.key info)).
Proof.
  intros Hnd. rewrite headerCellsOf_starts.
  intros [n Hn]%list_elem_of_lookup. rewrite lookup_zip_with in Hn.
  destruct (infos !! n) as [info|] eqn:Hinfo; [|done]. simpl in Hn.
  destruct (columnStarts 1 infos !! n) as [cur|] eqn:Hcur; [|done].
  injection Hn as <-. exists info. split; [by eapply list_elem_of_lookup_2|].
  unfold positionOf. by rewrite (columnPositions_starts _ _ _ Hnd Hinfo), Hcur.
Qed.

Lemma dataCells_elem_row (data : list Row) (infos : list HeaderInfo.t) pos c :
  c ∈ dataCells data infos pos →
  ∃ i item info, data !! i = Some item ∧ info ∈ infos
    ∧ c = createDataCell (getProp item (HeaderInfo.key info))
            (Z.of_nat i + 1) (positionOf pos (HeaderInfo.key info))
            (HeaderInfo.customCell info).
Proof.
  unfold dataCells.
  intros (i & item & Hi & Hc)%elem_of_concat_imap.
  apply list_elem_of_fmap in Hc as (info & -> & Hin).
  by exists i, item, info.
Qed.

(** X9.  A pass that returns emits nothing but the corner cell, the
    row-number cell of a row, a header cell in row 0 at the column of a
    plan entry, and a data cell of a row at the column of a plan entry,
    holding that row's value at the entry's field: no cell for a hidden
    column, no cell beyond the rows, no cell at a column the plan does
    not have. *)
Theorem only_planned_cells_are_emitted policy firstItem rest :
  let data := firstItem :: rest in
  let allKeys := getObjectKeys firstItem in
  NoDup allKeys →
  neverUndefined policy allKeys = true →
  ∃ calls cells,
    getCells data policy = (calls, inr cells)
    ∧ ∀ c, c ∈ cells →
        c = rowNumberHeaderCell
        ∨ (∃ i item, data !! i = Some item
             ∧ c = at_position (createRowNumberCell (Z.of_nat i + 1))
                     (Z.of_nat i + 1) 0)
        ∨ (∃ e, e ∈ columnPlan data policy
             ∧ coordinate c = (0, absoluteColumnIndex e))
        ∨ (∃ e i item customCell,
             e ∈ columnPlan data policy
             ∧ data !! i = Some item
             ∧ c = createDataCell (getProp item (fieldName e))
                     (Z.of_nat i + 1) (absoluteColumnIndex e) customCell).
Proof.
  intros data allKeys Hnd Hdef.
  eexists _, _. split; [by apply getCells_returns|]. fold allKeys.
  set (infos := headersOf policy allKeys).
  assert (∀ info, info ∈ infos →
            Planned (HeaderInfo.key info)
              (positionOf (columnPositionsOf infos) (HeaderInfo.key info))
              (spanWidth info) ∈ columnPlan data policy) as Hplanned.
  { intros info Hin. unfold data. rewrite columnPlan_headersOf by done.
    apply elem_of_planOf. by exists info. }
  intros c [->|[Hc|[Hc|Hc]%elem_of_app]%elem_of_app]%elem_of_cons.
  - by left.
  - right. left. unfold rowNumberCells in Hc.
    apply list_elem_of_lookup in Hc as [i Hi]. rewrite list_lookup_imap in Hi.
    destruct ((firstItem :: rest) !! i) as [item|] eqn:Hitem; [|done].
    injection Hi as <-. by exists i, item.
  - right. right. left.
    apply headerCellsOf_elem_planned in Hc as (info & Hin & ->);
      [|by apply headersOf_NoDup].
    eexists. split; [by apply Hplanned|done].
  - right. right. right.
    apply dataCells_elem_row in Hc as (i & item & info & Hi & Hin & ->).
    eexists _, i, item, _. split; [by apply Hplanned|]. by split.
Qed.

Lemma only_planned_cells_are_emitted_witness :
  ∃ calls cells,
    getCells [appJohn; appJane] (Some hideName) = (calls, inr cells)
    ∧ ∀ c, c ∈ cells → Cell.colIndex c ≠ 6.
Proof.
  assert (NoDup (getObjectKeys appJohn)) as Hnd.
  { apply (bool_decide_unpack _). vm_compute. exact I. }
  destruct (only_planned_cells_are_emitted (Some hideName) appJohn [appJane]
              Hnd eq_refl)
    as (calls & cells & Hret & Honly).
  exists calls, cells. split; [exact Hret|].
  assert (∀ e, e ∈ columnPlan [appJohn; appJane] (Some hideName) →
            absoluteColumnIndex e ≠ 6) as Hplan.
  { intros e He. apply list_elem_of_In in He. vm_compute in He.
    destruct He as [<-|[<-|[<-|[<-|[]]]]]; simpl; lia. }
  intros c Hc.
  destruct (Honly c Hc)
    as [->|[(i & item & _ & ->)|[(e & He & Hco)|(e & i & item & cu & He & _ & ->)]]].
  - simpl. lia.
  - simpl. lia.
  - injection Hco as _ ->. by apply Hplan.
  - pose proof (coordinate_createDataCell
        (getProp item (fieldName e)) (Z.of_nat i + 1) (absoluteColumnIndex e) cu)
      as [= _ ->].
    by apply Hplan.
Defined.

(** ** Rows are read at the discovered keys only *)

Lemma imap_Forall2_ext {A B} (R : A → A → Prop) (g g' : nat → A → B)
    (l l' : list A) :
  Forall2 R l l' →
  (∀ i x y, R x y → g i x = g' i y) →
  imap g l = imap g' l'.
Proof.
  intros Hl. revert g g'. induction Hl as [|x y l l' Hxy _ IH]; intros g g' Hg;
    [done|].
  rewrite !imap_cons. f_equal; [by apply Hg|].
  apply IH. intros i a b. apply Hg.
Qed.

Lemma resolveHeaders_inr policy allKeys log infos :
  resolveHeaders allKeys policy = (log, inr infos) →
  infos = headersOf policy allKeys.
Proof.
  destruct (neverUndefined policy allKeys) eqn:Hdef.
  - rewrite resolveHeaders_returns by done. by intros [= _ <-].
  - destruct policy as [f|]; [|done].
    unfold resolveHeaders, mapM_index. rewrite mapM_from_headers.
    destruct (undefinedFrom f 0 allKeys) as [n|] eqn:Hfirst; [done|].
    assert (firstUndefined (Some f) allKeys = None) as Hnone by done.
    apply firstUndefined_None in Hnone. congruence.
Qed.

(** X10.  The rows after the first are read at the discovered keys and
    nowhere else: two row sequences with the same first row and as many
    further rows, pairwise equal at every discovered key, give the same
    outcome of the pass, cells, policy calls and exception alike.  Keys
    that only later rows have, and the order of the keys inside a later
    row, change nothing. *)
Theorem later_rows_read_at_discovered_keys_only policy firstItem rest rest' :
  let allKeys := getObjectKeys firstItem in
  Forall2 (λ item item',
             ∀ key, key ∈ allKeys → getProp item key = getProp item' key)
          rest rest' →
  getCells (firstItem :: rest) policy = getCells (firstItem :: rest') policy.
Proof.
  intros allKeys Hrest.
  assert (Forall2 (λ item item',
            ∀ key, key ∈ allKeys → getProp item key = getProp item' key)
            (firstItem :: rest) (firstItem :: rest')) as Hdata
    by by constructor.
  assert (rowNumberCells (firstItem :: rest)
          = rowNumberCells (firstItem :: rest')) as Hnumbers.
  { unfold rowNumberCells. by apply (imap_Forall2_ext _ _ _ _ _ Hdata). }
  assert (∀ pos,
    dataCells (firstItem :: rest) (headersOf policy allKeys) pos
    = dataCells (firstItem :: rest') (headersOf policy allKeys) pos) as Hcells.
  { intros pos. unfold dataCells. f_equal.
    apply (imap_Forall2_ext _ _ _ _ _ Hdata).
    intros i item item' Hitem. apply map_ext_in. intros info Hin.
    rewrite Hitem; [done|].
    apply list_elem_of_In, elem_of_headersOf in Hin as (j & key & Hj & Hinfo).
    rewrite (headerOf_key _ _ _ _ Hinfo). by eapply list_elem_of_lookup_2. }
  unfold getCells. fold allKeys.
  destruct (resolveHeaders allKeys policy) as [log [e|infos]] eqn:Hres;
    [done|].
  apply resolveHeaders_inr in Hres. subst infos. cbv [bind ret].
  destruct (layoutColumns (headersOf policy allKeys)) as [[cur hs] pos].
  by rewrite Hnumbers, Hcells.
Qed.

Lemma later_rows_read_at_discovered_keys_only_witness :
  getCells [appJohn; appJane] (Some appPolicy)
  = getCells
      [appJohn;
       [("nickname", JStr "JS"); ("salary", JNum 80000);
        ("occupation", JStr "Designer"); ("city", JStr "San Francisco");
        ("age", JNum 34); ("name", JStr "Jane Smith")]]
      (Some appPolicy).
Proof.
  apply (later_rows_read_at_discovered_keys_only (Some appPolicy) appJohn).
  constructor; [|constructor].
  intros key Hkey. apply list_elem_of_In in Hkey. vm_compute in Hkey.
  destruct Hkey as [<-|[<-|[<-|[<-|[<-|[]]]]]]; reflexivity.
Defined.

(** ** Policies that give the same cells *)

Lemma getCells_sameColumns policy policy' firstItem rest :
  let allKeys := getObjectKeys firstItem in
  neverUndefined policy allKeys = true →
  neverUndefined policy' allKeys = true →
  (∀ j key, option_Forall2 sameColumn
              (headerOf policy j key) (headerOf policy' j key)) →
  (getCells (firstItem :: rest) policy).2
  = (getCells (firstItem :: rest) policy').2.
Proof.
  intros allKeys Hdef Hdef' Hsame.
  assert (Forall2 sameColumn (headersOf policy allKeys)
            (headersOf policy' allKeys)) as Hall
    by by apply omap_imap_Forall2.
  rewrite !getCells_returns by done. fold allKeys. simpl.
  unfold headerCellsOf, columnPositionsOf, layoutColumns.
  rewrite <- (layout_sameColumn _ _ _ Hall).
  by rewrite <- (dataCells_sameColumn _ _ _ _ Hall).
Qed.

Lemma concat_imap_nil {A B} (g : nat → A → list B) (l : list A) :
  (∀ j x, g j x = []) → concat (imap g l) = [].
Proof.
  revert g. induction l as [|x rest IH]; intros g Hg; [done|].
  rewrite imap_cons. simpl. rewrite Hg. apply IH. intros j y. apply Hg.
Qed.

(** X11.  Passing no policy gives the cells of the policy that answers
    every key with the key itself; the only difference is that the
    latter is called, once per discovered key. *)
Theorem no_policy_is_the_field_name_policy firstItem rest :
  let data := firstItem :: rest in
  let allKeys := getObjectKeys firstItem in
  let names : Policy := λ key _ _, PString key in
  ∃ cells,
    getCells data None = ([], inr cells)
    ∧ getCells data (Some names)
      = (imap (λ j key, Called key 0 (Z.of_nat j + 1)) allKeys, inr cells).
Proof.
  intros data allKeys names.
  assert (neverUndefined (Some names) allKeys = true) as Hdef
    by by apply allResults_intro.
  assert (headersOf (Some names) allKeys = headersOf None allKeys) as Hheaders.
  { reflexivity. }
  unfold data. rewrite !getCells_returns by done. fold allKeys.
  rewrite Hheaders. eexists. split.
  - f_equal. by apply concat_imap_nil.
  - f_equal.
    apply (concat_imap_singleton (λ j key, Called key 0 (Z.of_nat j + 1))).
Qed.

Lemma headerOf_titleOnlyAsString (f : Policy) j key :
  option_Forall2 sameColumn
    (headerOf (Some f) j key) (headerOf (Some (titleOnlyAsString f)) j key).
Proof.
  unfold headerOf, titleOnlyAsString. simpl.
  destruct (f key 0 (Z.of_nat j + 1)) as [|s|c| |b|n]; simpl;
    try by constructor; try (constructor; apply sameColumn_refl).
  destruct (titleOnly c) eqn:Htitle; simpl;
    [|constructor; apply sameColumn_refl].
  constructor.
  by destruct c as [t [?|] [?|] [?|] [?|] [?|] [?|]].
Qed.

(** X12.  A Custom spec that sets nothing but a title gives the column
    of a plain string answer: the title when it is not empty, the field
    name when the title is absent or empty.  A pass returns the same
    cells after every such spec is replaced by that string. *)
Theorem title_only_spec_is_a_string_answer (f : Policy) firstItem rest :
  let data := firstItem :: rest in
  let allKeys := getObjectKeys firstItem in
  neverUndefined (Some f) allKeys = true →
  (∀ key rowIndex colIndex title,
     f key rowIndex colIndex
     = PCustom (CustomCell.mk title None None None None None None) →
     titleOnlyAsString f key rowIndex colIndex
     = PString match title with
               | Some t => if String.eqb t "" then key else t
               | None => key
               end)
  ∧ ∃ calls cells,
      getCells data (Some f) = (calls, inr cells)
      ∧ getCells data (Some (titleOnlyAsString f)) = (calls, inr cells).
Proof.
  intros data allKeys Hdef. split.
  - intros key rowIndex colIndex title Hres.
    unfold titleOnlyAsString. by rewrite Hres.
  - assert (neverUndefined (Some (titleOnlyAsString f)) allKeys = true)
      as Hdef2.
    { apply allResults_intro. intros j key Hj.
      pose proof (neverUndefined_lookup _ _ _ _ Hdef Hj) as Hu.
      unfold titleOnlyAsString.
      destruct (f key 0 (Z.of_nat j + 1)) as [|s|c| |b|n]; try done.
      by destruct (titleOnly c). }
    pose proof (getCells_sameColumns (Some f) (Some (titleOnlyAsString f))
                  firstItem rest Hdef Hdef2
                  (headerOf_titleOnlyAsString f)) as Hsame.
    unfold data. rewrite !getCells_returns in Hsame by done.
    rewrite !getCells_returns by done. simpl in Hsame.
    eexists _, _. split; [reflexivity|]. f_equal. symmetry. exact Hsame.
Qed.

Lemma title_only_spec_is_a_string_answer_witness :
  ∃ calls cells,
    getCells [[("city", JStr "Boston")]]
      (Some (λ _ _ _, PCustom (CustomCell.mk (Some "City")
                                 None None None None None None)))
    = (calls, inr cells)
    ∧ getCells [[("city", JStr "Boston")]] (Some (λ _ _ _, PString "City"))
      = (calls, inr cells).
Proof.
  destruct (title_only_spec_is_a_string_answer
              (λ _ _ _, PCustom (CustomCell.mk (Some "City")
                                   None None None None None None))
              [("city", JStr "Boston")] [] eq_refl)
    as (_ & calls & cells & Hret & Hret2).
  exists calls, cells. split; [exact Hret | exact Hret2].
Defined.

(** ** Where the policy is consulted *)

Lemma mapM_from_ext {A B} (g h : A → nat → M B) (l : list A) (i : nat) :
  (∀ j x, l !! j = Some x → g x (i + j)%nat = h x (i + j)%nat) →
  mapM_from g i l = mapM_from h i l.
Proof.
  revert i. induction l as [|x rest IH]; intros i Hg; [done|].
  simpl. pose proof (Hg 0%nat x eq_refl) as H0. rewrite Nat.add_0_r in H0.
  rewrite H0, (IH (S i)); [done|].
  intros j y Hj. specialize (Hg (S j) y Hj).
  by replace (S i + j)%nat with (i + S j)%nat by lia.
Qed.

(** X13.  A pass consults the policy at the points [(key, 0, j+1)] of
    the discovered keys and nowhere else: two policies that answer alike
    at these points give the same outcome of the pass, cells, calls and
    exception alike, however they differ elsewhere. *)
Theorem policy_matters_at_discovered_points_only (f g : Policy)
    firstItem rest :
  let data := firstItem :: rest in
  let allKeys := getObjectKeys firstItem in
  (∀ j key, allKeys !! j = Some key →
     f key 0 (Z.of_nat j + 1) = g key 0 (Z.of_nat j + 1)) →
  getCells data (Some f) = getCells data (Some g)
  ∧ columnPlan data (Some f) = columnPlan data (Some g).
Proof.
  intros data allKeys Hsame.
  assert (resolveHeaders allKeys (Some f) = resolveHeaders allKeys (Some g))
    as Hres.
  { unfold resolveHeaders, mapM_index. f_equal. apply mapM_from_ext.
    intros j key Hj. simpl. by rewrite (Hsame j key Hj). }
  unfold data, getCells, columnPlan. fold allKeys. by rewrite Hres.
Qed.

Lemma policy_matters_at_discovered_points_only_witness :
  getCells [appJohn; appJane] (Some appPolicy)
  = getCells [appJohn; appJane]
      (Some (λ key rowIndex colIndex,
               if rowIndex =? 0 then appPolicy key rowIndex colIndex
               else PUndefined)).
Proof.
  destruct (policy_matters_at_discovered_points_only appPolicy
              (λ key rowIndex colIndex,
                 if rowIndex =? 0 then appPolicy key rowIndex colIndex
                 else PUndefined)
              appJohn [appJane]) as [Hcells _].
  - intros j key _. reflexivity.
  - exact Hcells.
Defined.

(** ** The order of the list *)

Lemma lookup_concat_imap_uniform {A B} (g : nat → A → list B) (l : list A)
    (k i n : nat) x :
  (∀ j y, length (g j y) = k) →
  l !! i = Some x →
  (n < k)%nat →
  concat (imap g l) !! (i * k + n)%nat = g i x !! n.
Proof.
  revert g i. induction l as [|y rest IH]; intros g i Hlen Hi Hn; [done|].
  rewrite imap_cons. simpl. destruct i as [|i]; simpl in *.
  - injection Hi as ->. apply lookup_app_l. by rewrite Hlen.
  - rewrite lookup_app_r by (rewrite Hlen; lia).
    rewrite Hlen. replace (k + i * k + n - k)%nat with (i * k + n)%nat by lia.
    apply (IH (g ∘ S)); [|done|done]. intros j z. apply Hlen.
Qed.

(** X14.  The returned list is in a fixed order: the corner cell first,
    then the row-number cells from the first row to the last, then the
    header cells in plan order, then the data cells row by row, each row
    in plan order.  With N rows and V plan entries, the header of the
    plan entry at position [n] is at list position 1 + N + n, and the
    data cell of the row at position [i] for that entry at list position
    1 + N + V + i·V + n. *)
Theorem cells_are_listed_in_order policy firstItem rest :
  let data := firstItem :: rest in
  let allKeys := getObjectKeys firstItem in
  let N := length data in
  let V := length (columnPlan data policy) in
  NoDup allKeys →
  neverUndefined policy allKeys = true →
  ∃ calls cells,
    getCells data policy = (calls, inr cells)
    ∧ cells !! 0%nat = Some rowNumberHeaderCell
    ∧ (∀ i item, data !! i = Some item →
         cells !! (1 + i)%nat
         = Some (at_position (createRowNumberCell (Z.of_nat i + 1))
                   (Z.of_nat i + 1) 0))
    ∧ (∀ n e, columnPlan data policy !! n = Some e →
         ∃ header, cells !! (1 + N + n)%nat = Some header
           ∧ coordinate header = (0, absoluteColumnIndex e))
    ∧ (∀ i item n e,
         data !! i = Some item →
         columnPlan data policy !! n = Some e →
         ∃ customCell,
           cells !! (1 + N + V + i * V + n)%nat
           = Some (createDataCell (getProp item (fieldName e))
                     (Z.of_nat i + 1) (absoluteColumnIndex e) customCell)).
Proof.
  intros data allKeys N V Hnd Hdef.
  set (infos := headersOf policy allKeys).
  assert (columnPlan data policy = planOf infos) as Hplan
    by by apply columnPlan_headersOf.
  assert (V = length infos) as HV.
  { unfold V. rewrite Hplan. unfold planOf. by rewrite length_map. }
  assert (∀ n e, columnPlan data policy !! n = Some e →
            ∃ info, infos !! n = Some info
              ∧ fieldName e = HeaderInfo.key info
              ∧ absoluteColumnIndex e
                = positionOf (columnPositionsOf infos) (HeaderInfo.key info))
    as Hentry.
  { intros n e. rewrite Hplan. unfold planOf.
    change (map ?h infos) with (h <$> infos). rewrite list_lookup_fmap.
    destruct (infos !! n) as [info|]; [|done]. intros [= <-]. by exists info. }
  eexists _, _. split; [by apply getCells_returns|]. fold allKeys infos.
  change (firstItem :: rest) with data.
  assert (length (rowNumberCells data) = N) as Hrows
    by apply length_rowNumberCells.
  assert (length (headerCellsOf infos) = V) as Hheads
    by by rewrite length_headerCellsOf.
  split_and!.
  - done.
  - intros i item Hi.
    change ((?c :: ?l) !! (1 + i)%nat) with (l !! i).
    rewrite lookup_app_l.
    + unfold rowNumberCells. by rewrite list_lookup_imap, Hi.
    + rewrite Hrows. by apply lookup_lt_Some in Hi.
  - intros n e He. destruct (Hentry n e He) as (info & Hinfo & _ & Hp).
    exists (headerCellAt info (absoluteColumnIndex e)). split; [|done].
    change ((?c :: ?l) !! (1 + N + n)%nat) with (l !! (N + n)%nat).
    rewrite lookup_app_r by (rewrite Hrows; lia).
    rewrite Hrows. replace (N + n - N)%nat with n by lia.
    rewrite lookup_app_l
      by (rewrite Hheads, HV; by apply lookup_lt_Some in Hinfo).
    rewrite headerCellsOf_starts, lookup_zip_with, Hinfo. simpl.
    rewrite Hp. unfold positionOf.
    rewrite (columnPositions_starts infos n info)
      by (by apply headersOf_NoDup || done).
    destruct (columnStarts 1 infos !! n) as [cur|] eqn:Hcur; [done|].
    apply lookup_ge_None in Hcur. rewrite length_columnStarts in Hcur.
    apply lookup_lt_Some in Hinfo. lia.
  - intros i item n e Hi He.
    destruct (Hentry n e He) as (info & Hinfo & Hkey & Hp).
    exists (HeaderInfo.customCell info).
    pose proof (lookup_lt_Some _ _ _ Hinfo) as Hn.
    change ((?c :: ?l) !! (1 + N + V + i * V + n)%nat)
      with (l !! (N + V + i * V + n)%nat).
    rewrite lookup_app_r by (rewrite Hrows; lia).
    rewrite Hrows.
    replace (N + V + i * V + n - N)%nat with (V + (i * V + n))%nat by lia.
    rewrite lookup_app_r by (rewrite Hheads; lia).
    rewrite Hheads. replace (V + (i * V + n) - V)%nat with (i * V + n)%nat by lia.
    unfold dataCells.
    rewrite (lookup_concat_imap_uniform _ _ V i n item);
      [|intros j y; by rewrite length_map|done|lia].
    change (map ?h infos) with (h <$> infos).
    rewrite list_lookup_fmap, Hinfo. simpl. by rewrite Hkey, Hp.
Qed.

Lemma cells_are_listed_in_order_witness :
  ∃ calls cells,
    getCells [appJohn; appJane] (Some appPolicy) = (calls, inr cells)
    ∧ ∃ customCell,
        cells !! 15%nat
        = Some (createDataCell (JStr "San Francisco") 2 3 customCell).
Proof.
  assert (NoDup (getObjectKeys appJohn)) as Hnd.
  { apply (bool_decide_unpack _). vm_compute. exact I. }
  destruct (cells_are_listed_in_order (Some appPolicy) appJohn [appJane]
              Hnd eq_refl)
    as (calls & cells & Hret & _ & _ & _ & Hdata).
  exists calls, cells. split; [exact Hret|].
  exact (Hdata 1%nat appJane 2%nat (Planned "city" 3 2) eq_refl eq_refl).
Defined.
